(** * Arcade Physics: tile separation on X and the vertical overlap check

    A shallow embedding of [ProcessTileSeparationX] and [CheckOverlapY]
    (src/physics/arcade/tilemap/ProcessTileSeparationX.js).

    - JavaScript numbers are IEEE 754 binary64 values: Rocq's primitive
      [float], with [<?], [=?], [-], [*] and unary minus as JavaScript's
      [<], [===], [-], [*] and unary minus on numbers.
    - Bodies and tiles are JavaScript objects, passed by reference and
      mutated in place: they live in a heap [gmap loc Obj], and a function
      is a computation [JS A] over that heap which may fail (a TypeError on
      a reference that is not a Body). Two references may denote the same
      object. *)

From Stdlib Require Import ZArith Bool Floats.
From stdpp Require Import base option gmap.

Local Open Scope Z_scope.

(** ** Numbers *)

Abbreviation number := float (only parsing).

(** [a > b] on JavaScript numbers. *)
Definition gtb (a b : number) : bool := (b <? a)%float.

(** SameValueZero of ECMAScript: equal as numbers ([+0] and [-0] are the
    same), and NaN is the same value as NaN. *)
Definition SameValueZero (a b : number) : bool :=
  (a =? b)%float || (is_nan a && is_nan b).

(** ** Data model *)

Module Vector2.
Record t := mk { x : number; y : number }.
Definition set_x (v : number) (p : t) : t := {| x := v; y := y p |}.
End Vector2.

Module Blocked.
(** Modelled from the spec: the [blocked] record of a Body (Body.js is not
    among the sources): up/down/left/right booleans. *)
Record t := mk { up : bool; down : bool; left : bool; right : bool }.
Definition set_up (v : bool) (c : t) : t :=
  {| up := v; down := down c; left := left c; right := right c |}.
Definition set_down (v : bool) (c : t) : t :=
  {| up := up c; down := v; left := left c; right := right c |}.
Definition set_left (v : bool) (c : t) : t :=
  {| up := up c; down := down c; left := v; right := right c |}.
Definition set_right (v : bool) (c : t) : t :=
  {| up := up c; down := down c; left := left c; right := v |}.
End Blocked.

Module Touching.
(** Modelled from the spec: the [touching] record of a Body (Body.js is not
    among the sources): up/down/left/right/none booleans. *)
Record t :=
  mk { none : bool; up : bool; down : bool; left : bool; right : bool }.
End Touching.

Module Body.
(** Modelled from the spec: the Body type (Body.js is not among the
    sources), with the attributes of the spec's data model. The two
    functions below read and write [position], [velocity], [bounce],
    [blocked] and [touching] only. *)
Record t := mk {
  position : Vector2.t;
  prev : Vector2.t;
  width : number;
  height : number;
  velocity : Vector2.t;
  acceleration : Vector2.t;
  drag : Vector2.t;
  bounce : Vector2.t;
  gravity : Vector2.t;
  mass : number;
  immovable : bool;
  collisionCategory : number;
  collisionMask : number;
  enable : bool;
  blocked : Blocked.t;
  touching : Touching.t;
  embedded : bool
}.

Definition set_position (f : Vector2.t -> Vector2.t) (b : t) : t :=
  {| position := f (position b); prev := prev b; width := width b;
     height := height b; velocity := velocity b;
     acceleration := acceleration b; drag := drag b; bounce := bounce b;
     gravity := gravity b; mass := mass b; immovable := immovable b;
     collisionCategory := collisionCategory b;
     collisionMask := collisionMask b; enable := enable b;
     blocked := blocked b; touching := touching b;
     embedded := embedded b |}.

Definition set_velocity (f : Vector2.t -> Vector2.t) (b : t) : t :=
  {| position := position b; prev := prev b; width := width b;
     height := height b; velocity := f (velocity b);
     acceleration := acceleration b; drag := drag b; bounce := bounce b;
     gravity := gravity b; mass := mass b; immovable := immovable b;
     collisionCategory := collisionCategory b;
     collisionMask := collisionMask b; enable := enable b;
     blocked := blocked b; touching := touching b;
     embedded := embedded b |}.

Definition set_blocked (f : Blocked.t -> Blocked.t) (b : t) : t :=
  {| position := position b; prev := prev b; width := width b;
     height := height b; velocity := velocity b;
     acceleration := acceleration b; drag := drag b; bounce := bounce b;
     gravity := gravity b; mass := mass b; immovable := immovable b;
     collisionCategory := collisionCategory b;
     collisionMask := collisionMask b; enable := enable b;
     blocked := f (blocked b); touching := touching b;
     embedded := embedded b |}.

Definition set_touching (f : Touching.t -> Touching.t) (b : t) : t :=
  {| position := position b; prev := prev b; width := width b;
     height := height b; velocity := velocity b;
     acceleration := acceleration b; drag := drag b; bounce := bounce b;
     gravity := gravity b; mass := mass b; immovable := immovable b;
     collisionCategory := collisionCategory b;
     collisionMask := collisionMask b; enable := enable b;
     blocked := blocked b; touching := f (touching b);
     embedded := embedded b |}.

(** Modelled from the spec: [Body.setTouchingUp] (Body.js is not among the
    sources) raises [touching.up] and clears [touching.none], the flag that
    says no face is touching. *)
Definition setTouchingUp : t -> t :=
  set_touching (fun c =>
    {| Touching.none := false; Touching.up := true;
       Touching.down := Touching.down c; Touching.left := Touching.left c;
       Touching.right := Touching.right c |}).
(** Modelled from the spec: [Body.setTouchingDown] (Body.js is not among
    the sources) raises [touching.down] and clears [touching.none]. *)
Definition setTouchingDown : t -> t :=
  set_touching (fun c =>
    {| Touching.none := false; Touching.up := Touching.up c;
       Touching.down := true; Touching.left := Touching.left c;
       Touching.right := Touching.right c |}).
(** Modelled from the spec: [Body.setBlockedUp] (Body.js is not among the
    sources) raises [blocked.up]. *)
Definition setBlockedUp : t -> t := set_blocked (Blocked.set_up true).

(** Modelled from the spec: [Body.setBlockedDown] (Body.js is not among the
    sources) raises [blocked.down]. *)
Definition setBlockedDown : t -> t := set_blocked (Blocked.set_down true).
End Body.

Module Tile.
(** Modelled from the spec: a tile collision cell, as [getTileAt] of the
    tilemap layer exposes it (the tilemap is not among the sources). *)
Record t := mk {
  index : Z;
  collideUp : bool;
  collideDown : bool;
  collideLeft : bool;
  collideRight : bool
}.
End Tile.

Module CONST.
(** Modelled from the spec: the facing constants of ./const (the arcade
    const.js is not among the sources), pairwise distinct. *)
Inductive Facing :=
  FACING_NONE | FACING_UP | FACING_DOWN | FACING_LEFT | FACING_RIGHT.

#[global] Instance Facing_eq_dec : EqDecision Facing.
Proof. solve_decision. Defined.
End CONST.

(** ** The heap and the computations over it *)

Abbreviation loc := nat (only parsing).

Inductive Obj :=
  | OBody (b : Body.t)
  | OTile (t : Tile.t).

Abbreviation Heap := (gmap nat Obj) (only parsing).

(** A computation reads and mutates the heap; [None] is an uncaught
    TypeError. *)
Definition JS (A : Type) : Type := Heap -> option (A * Heap).

#[global] Instance JS_ret : MRet JS := fun A a h => Some (a, h).
#[global] Instance JS_bind : MBind JS := fun A B k m h =>
  match m h with
  | Some (a, h') => k a h'
  | None => None
  end.

(** Dereference [l] as a Body. *)
Definition readBody (l : loc) : JS Body.t := fun h =>
  match h !! l with
  | Some (OBody b) => Some (b, h)
  | _ => None
  end.

Definition writeBody (l : loc) (b : Body.t) : JS unit := fun h =>
  Some (tt, <[l := OBody b]> h).

(** An in-place update of the Body that [l] refers to: a field assignment
    [l.f.g = e], or a call of a method that mutates [this]. *)
Definition assign (l : loc) (f : Body.t -> Body.t) : JS unit :=
  b ← readBody l; writeBody l (f b).

(** ** ProcessTileSeparationX *)

Definition ProcessTileSeparationX (body : loc) (x : number) : JS unit :=
  (if (x <? 0)%float then
     assign body (Body.set_blocked (Blocked.set_left true))
   else if gtb x 0 then
     assign body (Body.set_blocked (Blocked.set_right true))
   else mret tt);;
  assign body (fun b =>
    Body.set_position
      (Vector2.set_x (Vector2.x (Body.position b) - x)%float) b);;
  b ← readBody body;
  if (Vector2.x (Body.bounce b) =? 0)%float then
    assign body (Body.set_velocity (Vector2.set_x 0%float))
  else
    assign body (fun b =>
      Body.set_velocity
        (Vector2.set_x
           (- Vector2.x (Body.velocity b) * Vector2.x (Body.bounce b))%float)
        b).

(** ** CheckOverlapY *)

Module CollisionInfo.
(** Modelled from the spec: the CollisionInfo record (CollisionInfo.js is
    not among the sources). [body1] and [body2] are references. *)
Record t := mk {
  body1 : loc;
  body2 : loc;
  intersects : bool;
  overlapX : number;
  overlapY : number;
  face : CONST.Facing;
  touching : bool
}.
End CollisionInfo.

(** [CollisionInfo.update] is not among the sources: it is a parameter
    [update] of what follows, any function that recomputes the record from
    the bodies in the heap. *)
Definition callUpdate (update : Heap -> CollisionInfo.t -> CollisionInfo.t)
  (collisionInfo : CollisionInfo.t) : JS CollisionInfo.t := fun h =>
  Some (update h collisionInfo, h).

Definition CheckOverlapY
  (update : Heap -> CollisionInfo.t -> CollisionInfo.t)
  (body : loc) (collisionInfo : CollisionInfo.t) : JS bool :=
  collisionInfo ← callUpdate update collisionInfo;
  let face := CollisionInfo.face collisionInfo in
  let body1 := CollisionInfo.body1 collisionInfo in
  let body2 := CollisionInfo.body2 collisionInfo in
  (if bool_decide (face = CONST.FACING_UP) then
     assign body1 Body.setTouchingUp;;
     assign body2 Body.setTouchingDown;;
     assign body1 Body.setBlockedUp;;
     assign body2 Body.setBlockedDown
   else if bool_decide (face = CONST.FACING_DOWN) then
     assign body1 Body.setTouchingDown;;
     assign body2 Body.setTouchingUp;;
     assign body1 Body.setBlockedDown;;
     assign body2 Body.setBlockedUp
   else mret tt);;
  mret (CollisionInfo.touching collisionInfo).

(** ** What a call leaves behind *)

(** The three statements of [ProcessTileSeparationX] as transformers of the
    record of the body: the blocked flag, the position, the bounce.
    [ProcessTileSeparationX_run] proves that the call composes them. *)
Definition blockX (x : number) (b : Body.t) : Body.t :=
  if (x <? 0)%float then Body.set_blocked (Blocked.set_left true) b
  else if gtb x 0 then Body.set_blocked (Blocked.set_right true) b
  else b.

Definition moveX (x : number) (b : Body.t) : Body.t :=
  Body.set_position
    (Vector2.set_x (Vector2.x (Body.position b) - x)%float) b.

Definition bounceX (b : Body.t) : Body.t :=
  if (Vector2.x (Body.bounce b) =? 0)%float then
    Body.set_velocity (Vector2.set_x 0%float) b
  else
    Body.set_velocity
      (Vector2.set_x
         (- Vector2.x (Body.velocity b) * Vector2.x (Body.bounce b))%float)
      b.

(** A method of Body applied to whatever object a reference denotes. *)
Definition onBody (f : Body.t -> Body.t) (o : Obj) : Obj :=
  match o with
  | OBody b => OBody (f b)
  | OTile t => OTile t
  end.

Definition isBody (h : Heap) (l : loc) : Prop :=
  exists b, h !! l = Some (OBody b).

(** The heap that the four setter calls of one branch of [CheckOverlapY]
    leave, in the order of the calls; [body1] and [body2] may be the same
    reference. *)
Definition flagPair (f1 g2 f1' g2' : Body.t -> Body.t) (body1 body2 : loc)
  (h : Heap) : Heap :=
  alter (onBody g2') body2
    (alter (onBody f1') body1
       (alter (onBody g2) body2 (alter (onBody f1) body1 h))).

(** The heap that [CheckOverlapY] leaves on the recomputed record
    [collisionInfo]; [CheckOverlapY_run] proves it. *)
Definition flagsAfter (collisionInfo : CollisionInfo.t) (h : Heap) : Heap :=
  let face := CollisionInfo.face collisionInfo in
  let body1 := CollisionInfo.body1 collisionInfo in
  let body2 := CollisionInfo.body2 collisionInfo in
  if bool_decide (face = CONST.FACING_UP) then
    flagPair Body.setTouchingUp Body.setTouchingDown
             Body.setBlockedUp Body.setBlockedDown body1 body2 h
  else if bool_decide (face = CONST.FACING_DOWN) then
    flagPair Body.setTouchingDown Body.setTouchingUp
             Body.setBlockedDown Body.setBlockedUp body1 body2 h
  else h.

(** The face is on the vertical axis. *)
Definition vertical (face : CONST.Facing) : bool :=
  bool_decide (face = CONST.FACING_UP)
  || bool_decide (face = CONST.FACING_DOWN).

(** ** Sample objects

    The first scenario of the spec: body A, 32 by 32, moving right at 100,
    has integrated to x = 50 and overlaps an immovable neighbour at x = 40
    by 42. *)
Definition origin : Vector2.t := {| Vector2.x := 0; Vector2.y := 0 |}.

Definition bodyA (bounce_x : number) : Body.t :=
  {| Body.position := {| Vector2.x := 50; Vector2.y := 0 |};
     Body.prev := origin;
     Body.width := 32; Body.height := 32;
     Body.velocity := {| Vector2.x := 100; Vector2.y := 0 |};
     Body.acceleration := origin; Body.drag := origin;
     Body.bounce := {| Vector2.x := bounce_x; Vector2.y := 0 |};
     Body.gravity := origin; Body.mass := 1; Body.immovable := false;
     Body.collisionCategory := 1; Body.collisionMask := 1;
     Body.enable := true;
     Body.blocked := Blocked.mk false false false false;
     Body.touching := Touching.mk true false false false false;
     Body.embedded := false |}.

Definition bodyB (px py : number) : Body.t :=
  {| Body.position := {| Vector2.x := px; Vector2.y := py |};
     Body.prev := {| Vector2.x := px; Vector2.y := py |};
     Body.width := 32; Body.height := 32;
     Body.velocity := origin;
     Body.acceleration := origin; Body.drag := origin;
     Body.bounce := origin;
     Body.gravity := origin; Body.mass := 1; Body.immovable := true;
     Body.collisionCategory := 1; Body.collisionMask := 1;
     Body.enable := true;
     Body.blocked := Blocked.mk false false false false;
     Body.touching := Touching.mk true false false false false;
     Body.embedded := false |}.

Definition wallTile : Tile.t :=
  {| Tile.index := 7; Tile.collideUp := true; Tile.collideDown := true;
     Tile.collideLeft := true; Tile.collideRight := true |}.

(** Body A at reference 1, a tile at reference 2. *)
Definition tileHeap (bounce_x : number) : Heap :=
  <[2%nat := OTile wallTile]> {[ 1%nat := OBody (bodyA bounce_x) ]}.

(** Body A at reference 1, an immovable body B, 32 by 32 at (px, py), at
    reference 2. *)
Definition pairHeap (px py : number) : Heap :=
  <[2%nat := OBody (bodyB px py)]> {[ 1%nat := OBody (bodyA 0) ]}.

(** B at (40, 16): A, on top, has sunk into B by 22 on X and 16 on Y. The
    face is the bottom one of A, and no overlap is near zero: the bodies
    intersect and are not touching. *)
Definition deepInfo : CollisionInfo.t :=
  {| CollisionInfo.body1 := 1%nat; CollisionInfo.body2 := 2%nat;
     CollisionInfo.intersects := true;
     CollisionInfo.overlapX := 22; CollisionInfo.overlapY := 16;
     CollisionInfo.face := CONST.FACING_DOWN;
     CollisionInfo.touching := false |}.

(** B at (40, 32), seen from B: its top edge just meets the bottom edge of
    A. *)
Definition restingInfo : CollisionInfo.t :=
  {| CollisionInfo.body1 := 2%nat; CollisionInfo.body2 := 1%nat;
     CollisionInfo.intersects := true;
     CollisionInfo.overlapX := 22; CollisionInfo.overlapY := 0;
     CollisionInfo.face := CONST.FACING_UP;
     CollisionInfo.touching := true |}.

(** B at (82, 0): its left edge just meets the right edge of A. *)
Definition sideInfo : CollisionInfo.t :=
  {| CollisionInfo.body1 := 1%nat; CollisionInfo.body2 := 2%nat;
     CollisionInfo.intersects := true;
     CollisionInfo.overlapX := 0; CollisionInfo.overlapY := 32;
     CollisionInfo.face := CONST.FACING_RIGHT;
     CollisionInfo.touching := true |}.

(** An instance of the parameter [update], for bodies that did not move
    since the record was computed: recomputing the record gives it back. *)
Definition updateStill (h : Heap) (collisionInfo : CollisionInfo.t)
  : CollisionInfo.t := collisionInfo.

(** Body A with its left side already blocked, alone at reference 1. *)
Definition leftBlockedA : Body.t :=
  Body.set_blocked (Blocked.set_left true) (bodyA 0).

Definition leftBlockedHeap : Heap := {[ 1%nat := OBody leftBlockedA ]}.

(** A at reference 1, B at (40, 32) at reference 2, a tile at reference
    3. *)
Definition sceneHeap : Heap := <[3%nat := OTile wallTile]> (pairHeap 40 32).

(** ** What CollisionInfo.update reads *)

(** Modelled from the spec: [CollisionInfo.update] (CollisionInfo.js is not
    among the sources) is a pairwise computation, the record of one pair
    of bodies recomputed from that pair: what it returns depends on the
    record it is given and on the two objects that record names, and on
    nothing else in the heap. *)
Definition pairwise (update : Heap -> CollisionInfo.t -> CollisionInfo.t)
  : Prop :=
  forall (h1 h2 : Heap) (collisionInfo : CollisionInfo.t),
    h1 !! CollisionInfo.body1 collisionInfo
    = h2 !! CollisionInfo.body1 collisionInfo ->
    h1 !! CollisionInfo.body2 collisionInfo
    = h2 !! CollisionInfo.body2 collisionInfo ->
    update h1 collisionInfo = update h2 collisionInfo.

(** ** Signs of binary64 values *)

(** [f] is a number (not NaN) whose sign bit is [s]. *)
Definition SFsigned (s : bool) (f : spec_float) : Prop :=
  match f with
  | S754_nan => False
  | S754_zero s' | S754_infinity s' | S754_finite s' _ _ => s' = s
  end.

(** [f] is a number other than [+0] and [-0]. *)
Definition SFnonzero (f : spec_float) : Prop :=
  match f with
  | S754_nan | S754_zero _ => False
  | S754_infinity _ | S754_finite _ _ _ => True
  end.

(** [f] is a zero or a finite number. *)
Definition SFfinite (f : spec_float) : Prop :=
  match f with
  | S754_zero _ | S754_finite _ _ _ => True
  | S754_nan | S754_infinity _ => False
  end.

(** ** Binary64 facts *)

Lemma Prim2SF_zero : Prim2SF 0%float = S754_zero false.
Proof. reflexivity. Qed.

Lemma Prim2SF_one : Prim2SF 1%float = S754_finite false 4503599627370496 (-52).
Proof. reflexivity. Qed.

Lemma eqb_zero_inv (x : float) :
  (x =? 0)%float = true -> exists s, Prim2SF x = S754_zero s.
Proof.
  rewrite FloatAxioms.eqb_spec, Prim2SF_zero.
  destruct (Prim2SF x) as [s|s| |s m e]; cbn; try discriminate.
  - intros _. now exists s.
  - destruct s; discriminate.
  - destruct s; discriminate.
Qed.

Lemma SFcompare_refl (f : spec_float) :
  f <> S754_nan -> SFcompare f f = Some Eq.
Proof.
  destruct f as [s|s| |s m e]; cbn; intros H; try congruence.
  - now destruct s.
  - rewrite Z.compare_refl, Pos.compare_cont_refl. now destruct s.
Qed.

Lemma SameValueZero_refl (a : float) : SameValueZero a a = true.
Proof.
  unfold SameValueZero, is_nan. rewrite FloatAxioms.eqb_spec. unfold SFeqb.
  destruct (Prim2SF a) eqn:E; try (rewrite SFcompare_refl by congruence; reflexivity).
  reflexivity.
Qed.

Lemma eqb_zero_not_lt (x : float) :
  (x =? 0)%float = true -> (x <? 0)%float = false /\ (0 <? x)%float = false.
Proof.
  intros H. destruct (eqb_zero_inv x H) as [s Hs].
  rewrite !FloatAxioms.ltb_spec, Prim2SF_zero, Hs. now split.
Qed.

Lemma sub_pos_zero (p : float) : (p - 0)%float = p.
Proof.
  apply Prim2SF_inj. rewrite FloatAxioms.sub_spec, Prim2SF_zero.
  destruct (Prim2SF p) as [s|s| |s m e]; try reflexivity.
  now destruct s.
Qed.

Lemma sub_zero_same (p x : float) :
  (x =? 0)%float = true -> SameValueZero (p - x)%float p = true.
Proof.
  intros H. destruct (eqb_zero_inv x H) as [sx Hx].
  destruct (Prim2SF p) as [s|s| |s m e] eqn:Hp.
  - unfold SameValueZero. rewrite FloatAxioms.eqb_spec, FloatAxioms.sub_spec, Hp, Hx.
    now destruct s, sx.
  - replace (p - x)%float with p; [apply SameValueZero_refl|].
    apply Prim2SF_inj. now rewrite FloatAxioms.sub_spec, Hp, Hx.
  - replace (p - x)%float with p; [apply SameValueZero_refl|].
    apply Prim2SF_inj. now rewrite FloatAxioms.sub_spec, Hp, Hx.
  - replace (p - x)%float with p; [apply SameValueZero_refl|].
    apply Prim2SF_inj. now rewrite FloatAxioms.sub_spec, Hp, Hx.
Qed.

Lemma eqb_one_inv (x : float) : (x =? 1)%float = true -> x = 1%float.
Proof.
  rewrite FloatAxioms.eqb_spec. intros H. apply Prim2SF_inj.
  rewrite Prim2SF_one in *.
  destruct (Prim2SF x) as [s|s| |s m e]; unfold SFeqb, SFcompare in H;
    try discriminate.
  - destruct s; discriminate.
  - destruct s; [discriminate|].
    destruct (e ?= -52) eqn:He; try discriminate.
    apply Z.compare_eq in He. subst e.
    destruct (Pos.compare_cont Eq m 4503599627370496) eqn:Hm; try discriminate.
    apply Pos.compare_eq in Hm. now subst m.
Qed.

Lemma abs_opp (v : float) : abs (- v) = abs v.
Proof.
  apply Prim2SF_inj. rewrite !FloatAxioms.abs_spec, FloatAxioms.opp_spec.
  now destruct (Prim2SF v).
Qed.

Lemma digits2_pos_xO (p : positive) :
  digits2_pos p~0 = Pos.succ (digits2_pos p).
Proof. reflexivity. Qed.

Lemma round_mul_one (s : bool) (m : positive) (e : Z) :
  bounded prec emax m e = true ->
  binary_round_aux prec emax s (Zpos (m * 4503599627370496)) (e + -52) loc_Exact
  = S754_finite s m e.
Proof.
  unfold bounded, canonical_mantissa. intros H.
  apply andb_prop in H. destruct H as [Hc Hb]. apply Z.eqb_eq in Hc.
  rewrite Pos.mul_comm.
  lazy [Pos.mul].
  unfold binary_round_aux, shr_fexp, Zdigits2, shr_record_of_loc.
  rewrite !digits2_pos_xO, !Pos2Z.inj_succ.
  match goal with |- context [fexp prec emax ?a] =>
    replace a with (Z.pos (digits2_pos m) + e) by lia end.
  rewrite Hc. replace (e - (e + -52)) with 52 by lia.
  unfold shr at 1.
  lazy [SpecFloat.iter_pos shr_1 orb].
  replace (e + -52 + 52) with e by lia.
  unfold shr_m, loc_of_shr_record, round_nearest_even.
  rewrite Hc, Z.sub_diag.
  unfold shr. now rewrite Hb.
Qed.
Lemma mul_one (v : float) : (v * 1)%float = v.
Proof.
  apply Prim2SF_inj. rewrite FloatAxioms.mul_spec, Prim2SF_one.
  pose proof (Prim2SF_valid v) as Hv.
  destruct (Prim2SF v) as [s|s| |s m e]; cbn [SF64mul SFmul].
  - now rewrite xorb_false_r.
  - now rewrite xorb_false_r.
  - reflexivity.
  - unfold SF64mul, SFmul. rewrite xorb_false_r. now apply round_mul_one.
Qed.

(** ** Running the computations *)

Lemma assign_run (h : Heap) (l : loc) (b : Body.t) (f : Body.t -> Body.t) :
  h !! l = Some (OBody b) ->
  assign l f h = Some (tt, <[l := OBody (f b)]> h).
Proof.
  intros Hl. unfold assign, mbind, JS_bind, readBody, writeBody.
  now rewrite Hl.
Qed.

Lemma assign_TypeError (h : Heap) (l : loc) (f : Body.t -> Body.t) :
  ~ isBody h l -> assign l f h = None.
Proof.
  intros Hl. unfold assign, mbind, JS_bind, readBody.
  destruct (h !! l) as [[b|t]|] eqn:E; try reflexivity.
  destruct Hl. now exists b.
Qed.

(** On a reference to a Body the call returns, and its whole effect is to
    replace the record of that body. *)
Lemma ProcessTileSeparationX_run (h : Heap) (body : loc) (b : Body.t)
  (x : number) :
  h !! body = Some (OBody b) ->
  ProcessTileSeparationX body x h
  = Some (tt, <[body := OBody (bounceX (moveX x (blockX x b)))]> h).
Proof.
  intros Hl. unfold ProcessTileSeparationX.
  assert (Hflag :
    (if (x <? 0)%float then
       assign body (Body.set_blocked (Blocked.set_left true))
     else if gtb x 0 then
       assign body (Body.set_blocked (Blocked.set_right true))
     else mret tt) h = Some (tt, <[body := OBody (blockX x b)]> h)).
  { unfold blockX.
    destruct (x <? 0)%float; [now apply assign_run|].
    destruct (gtb x 0); [now apply assign_run|].
    unfold mret, JS_ret. now rewrite insert_id. }
  unfold mbind at 1. unfold JS_bind at 1. rewrite Hflag.
  unfold mbind at 1. unfold JS_bind at 1.
  rewrite (assign_run _ body (blockX x b)) by apply lookup_insert_eq.
  rewrite insert_insert_eq.
  unfold mbind at 1. unfold JS_bind at 1. unfold readBody at 1.
  rewrite lookup_insert_eq. fold (moveX x (blockX x b)).
  set (b2 := moveX x (blockX x b)).
  unfold bounceX.
  destruct (Vector2.x (Body.bounce b2) =? 0)%float;
    rewrite (assign_run _ body b2) by apply lookup_insert_eq;
    now rewrite insert_insert_eq.
Qed.

(** A call on a reference that is not a Body raises. *)
Lemma ProcessTileSeparationX_TypeError (h : Heap) (body : loc) (x : number) :
  ~ isBody h body -> ProcessTileSeparationX body x h = None.
Proof.
  intros Hl. unfold ProcessTileSeparationX.
  unfold mbind at 1. unfold JS_bind at 1.
  destruct (x <? 0)%float; [now rewrite assign_TypeError|].
  destruct (gtb x 0); [now rewrite assign_TypeError|].
  unfold mret, JS_ret.
  unfold mbind at 1. unfold JS_bind at 1. now rewrite assign_TypeError.
Qed.

(** The record that a call leaves, field by field. *)
Lemma ProcessTileSeparationX_effect (b : Body.t) (x : number) :
  bounceX (moveX x (blockX x b))
  = {| Body.position :=
         {| Vector2.x := (Vector2.x (Body.position b) - x)%float;
            Vector2.y := Vector2.y (Body.position b) |};
       Body.prev := Body.prev b;
       Body.width := Body.width b;
       Body.height := Body.height b;
       Body.velocity :=
         {| Vector2.x :=
              if (Vector2.x (Body.bounce b) =? 0)%float then 0%float
              else (- Vector2.x (Body.velocity b)
                    * Vector2.x (Body.bounce b))%float;
            Vector2.y := Vector2.y (Body.velocity b) |};
       Body.acceleration := Body.acceleration b;
       Body.drag := Body.drag b;
       Body.bounce := Body.bounce b;
       Body.gravity := Body.gravity b;
       Body.mass := Body.mass b;
       Body.immovable := Body.immovable b;
       Body.collisionCategory := Body.collisionCategory b;
       Body.collisionMask := Body.collisionMask b;
       Body.enable := Body.enable b;
       Body.blocked :=
         {| Blocked.up := Blocked.up (Body.blocked b);
            Blocked.down := Blocked.down (Body.blocked b);
            Blocked.left :=
              if (x <? 0)%float then true
              else Blocked.left (Body.blocked b);
            Blocked.right :=
              if (x <? 0)%float then Blocked.right (Body.blocked b)
              else if gtb x 0 then true
              else Blocked.right (Body.blocked b) |};
       Body.touching := Body.touching b;
       Body.embedded := Body.embedded b |}.
Proof.
  destruct b as [pos prv w hgt vel acc drg bnc grv ms imm cc cm en blk tch emb].
  destruct blk as [u d l r], pos as [px py], vel as [vx vy].
  unfold bounceX, moveX, blockX.
  destruct (x <? 0)%float; [|destruct (gtb x 0)]; simpl;
    destruct (Vector2.x bnc =? 0)%float; reflexivity.
Qed.

(** The call on a Body, in one step: it returns, the body is still at its
    reference, and every other object is as before. *)
Lemma ProcessTileSeparationX_body (h : Heap) (body : loc) (b : Body.t)
  (x : number) :
  h !! body = Some (OBody b) ->
  exists h',
    ProcessTileSeparationX body x h = Some (tt, h') /\
    h' !! body = Some (OBody (bounceX (moveX x (blockX x b)))) /\
    (forall l, l <> body -> h' !! l = h !! l).
Proof.
  intros Hl. eexists.
  split; [exact (ProcessTileSeparationX_run h body b x Hl)|].
  split; [apply lookup_insert_eq|].
  intros l Hne. apply lookup_insert_ne. congruence.
Qed.

Lemma gtb_zero_not_lt (x : float) :
  gtb x 0 = true -> (x <? 0)%float = false.
Proof.
  unfold gtb. rewrite !FloatAxioms.ltb_spec, Prim2SF_zero.
  destruct (Prim2SF x) as [s|s| |s m e]; unfold SFltb, SFcompare;
    try reflexivity; now destruct s.
Qed.

(** ** ProcessTileSeparationX: the claims *)

(** C1. On a body separated from a tile on X, the bounce is applied to the
    velocity after the position was corrected: velocity.x becomes 0 when
    bounce.x is 0 and [-velocity.x * bounce.x] otherwise. Every tile of the
    heap is as it was before the call. *)
Theorem ProcessTileSeparationX_applies_bounce (h : Heap) (body : loc)
  (b : Body.t) (x : number) :
  h !! body = Some (OBody b) ->
  exists h' b',
    ProcessTileSeparationX body x h = Some (tt, h') /\
    h' !! body = Some (OBody b') /\
    Vector2.x (Body.velocity b')
    = (if (Vector2.x (Body.bounce b) =? 0)%float then 0%float
       else (- Vector2.x (Body.velocity b)
             * Vector2.x (Body.bounce b))%float) /\
    (forall t tile, h !! t = Some (OTile tile) -> h' !! t = Some (OTile tile)).
Proof.
  intros Hl.
  destruct (ProcessTileSeparationX_body h body b x Hl) as (h' & Hrun & Hb & Hfr).
  exists h', (bounceX (moveX x (blockX x b))).
  repeat split; try assumption.
  - now rewrite ProcessTileSeparationX_effect.
  - intros t tile Ht. rewrite Hfr; [assumption|].
    intros ->. congruence.
Qed.

Lemma ProcessTileSeparationX_applies_bounce_witness :
  exists h' b',
    ProcessTileSeparationX 1%nat 42 (tileHeap 0.5) = Some (tt, h') /\
    h' !! 1%nat = Some (OBody b') /\
    Vector2.x (Body.velocity b') = (-50)%float /\
    h' !! 2%nat = Some (OTile wallTile).
Proof.
  destruct (ProcessTileSeparationX_applies_bounce
              (tileHeap 0.5) 1%nat (bodyA 0.5) 42 eq_refl)
    as (h' & b' & Hrun & Hb & Hv & Ht).
  exists h', b'. repeat split; try assumption.
  apply Ht. reflexivity.
Defined.

(** C2. The separation amount is subtracted from the position on X. *)
Theorem ProcessTileSeparationX_subtracts_position (h : Heap) (body : loc)
  (b : Body.t) (x : number) :
  h !! body = Some (OBody b) ->
  exists h' b',
    ProcessTileSeparationX body x h = Some (tt, h') /\
    h' !! body = Some (OBody b') /\
    Vector2.x (Body.position b') = (Vector2.x (Body.position b) - x)%float.
Proof.
  intros Hl.
  destruct (ProcessTileSeparationX_body h body b x Hl) as (h' & Hrun & Hb & _).
  exists h', (bounceX (moveX x (blockX x b))).
  repeat split; try assumption.
  now rewrite ProcessTileSeparationX_effect.
Qed.

Lemma ProcessTileSeparationX_subtracts_position_witness :
  exists h' b',
    ProcessTileSeparationX 1%nat 42 (tileHeap 0) = Some (tt, h') /\
    h' !! 1%nat = Some (OBody b') /\
    Vector2.x (Body.position b') = 8%float.
Proof.
  destruct (ProcessTileSeparationX_subtracts_position
              (tileHeap 0) 1%nat (bodyA 0) 42 eq_refl)
    as (h' & b' & Hrun & Hb & Hp).
  exists h', b'. repeat split; assumption.
Defined.

(** C3. The blocked flag follows the sign of the separation amount: left is
    raised when x < 0, right when x > 0 (the opposite flag keeps its value),
    and neither is written when x == 0. *)
Theorem ProcessTileSeparationX_blocked_by_sign (h : Heap) (body : loc)
  (b : Body.t) (x : number) :
  h !! body = Some (OBody b) ->
  exists h' b',
    ProcessTileSeparationX body x h = Some (tt, h') /\
    h' !! body = Some (OBody b') /\
    ((x <? 0)%float = true ->
       Blocked.left (Body.blocked b') = true /\
       Blocked.right (Body.blocked b') = Blocked.right (Body.blocked b)) /\
    (gtb x 0 = true ->
       Blocked.right (Body.blocked b') = true /\
       Blocked.left (Body.blocked b') = Blocked.left (Body.blocked b)) /\
    ((x =? 0)%float = true -> Body.blocked b' = Body.blocked b).
Proof.
  intros Hl.
  destruct (ProcessTileSeparationX_body h body b x Hl) as (h' & Hrun & Hb & _).
  exists h', (bounceX (moveX x (blockX x b))).
  split; [assumption|]. split; [assumption|].
  rewrite ProcessTileSeparationX_effect. simpl.
  split; [|split].
  - intros ->. now split.
  - intros Hgt. rewrite (gtb_zero_not_lt x Hgt), Hgt. now split.
  - intros Hz. destruct (eqb_zero_not_lt x Hz) as [Hlt Hgt].
    unfold gtb. rewrite Hlt, Hgt. now destruct (Body.blocked b).
Qed.

Lemma ProcessTileSeparationX_blocked_by_sign_witness :
  exists h' b',
    ProcessTileSeparationX 1%nat 42 (tileHeap 0) = Some (tt, h') /\
    h' !! 1%nat = Some (OBody b') /\
    Blocked.right (Body.blocked b') = true /\
    Blocked.left (Body.blocked b') = false.
Proof.
  destruct (ProcessTileSeparationX_blocked_by_sign
              (tileHeap 0) 1%nat (bodyA 0) 42 eq_refl)
    as (h' & b' & Hrun & Hb & _ & Hgt & _).
  exists h', b'. split; [assumption|]. split; [assumption|].
  destruct (Hgt eq_refl) as [Hr Hlft]. split; [assumption|].
  rewrite Hlft. reflexivity.
Defined.

(** C4, as stated, fails: with a separation amount of 0 the bounce is still
    applied. Body A moves at 100 with bounce 0; the call with x = 0 leaves
    it with velocity 0. *)
Lemma zero_separation_rewrites_velocity :
  (0 =? 0)%float = true /\
  Vector2.x (Body.velocity (bodyA 0)) = 100%float /\
  exists h' b',
    ProcessTileSeparationX 1%nat 0 (tileHeap 0) = Some (tt, h') /\
    h' !! 1%nat = Some (OBody b') /\
    Vector2.x (Body.velocity b') = 0%float /\
    (Vector2.x (Body.velocity b')
     =? Vector2.x (Body.velocity (bodyA 0)))%float = false.
Proof.
  split; [reflexivity|]. split; [reflexivity|].
  destruct (ProcessTileSeparationX_body (tileHeap 0) 1%nat (bodyA 0) 0 eq_refl)
    as (h' & Hrun & Hb & _).
  exists h', (bounceX (moveX 0 (blockX 0 (bodyA 0)))).
  repeat split; try assumption; reflexivity.
Qed.

(** C4, amended. With a separation amount of 0 the call leaves the blocked
    flags and the position as they were (position.x is the same number, and
    the identical value when x is +0), and still rewrites velocity.x by the
    bounce rule. *)
Theorem ProcessTileSeparationX_zero_separation (h : Heap) (body : loc)
  (b : Body.t) (x : number) :
  h !! body = Some (OBody b) ->
  (x =? 0)%float = true ->
  exists h' b',
    ProcessTileSeparationX body x h = Some (tt, h') /\
    h' !! body = Some (OBody b') /\
    Body.blocked b' = Body.blocked b /\
    SameValueZero (Vector2.x (Body.position b'))
                  (Vector2.x (Body.position b)) = true /\
    Vector2.y (Body.position b') = Vector2.y (Body.position b) /\
    (x = 0%float -> Body.position b' = Body.position b) /\
    Vector2.x (Body.velocity b')
    = (if (Vector2.x (Body.bounce b) =? 0)%float then 0%float
       else (- Vector2.x (Body.velocity b)
             * Vector2.x (Body.bounce b))%float) /\
    Vector2.y (Body.velocity b') = Vector2.y (Body.velocity b).
Proof.
  intros Hl Hz.
  destruct (ProcessTileSeparationX_body h body b x Hl) as (h' & Hrun & Hb & _).
  exists h', (bounceX (moveX x (blockX x b))).
  split; [assumption|]. split; [assumption|].
  rewrite ProcessTileSeparationX_effect. simpl.
  destruct (eqb_zero_not_lt x Hz) as [Hlt Hgt].
  unfold gtb. rewrite Hlt, Hgt.
  split; [now destruct (Body.blocked b)|].
  split; [now apply sub_zero_same|].
  split; [reflexivity|].
  split; [|now split].
  intros ->. rewrite sub_pos_zero. now destruct (Body.position b).
Qed.

Lemma ProcessTileSeparationX_zero_separation_witness :
  exists h' b',
    ProcessTileSeparationX 1%nat 0 (tileHeap 0.5) = Some (tt, h') /\
    h' !! 1%nat = Some (OBody b') /\
    Body.blocked b' = Body.blocked (bodyA 0.5) /\
    Body.position b' = Body.position (bodyA 0.5) /\
    Vector2.x (Body.velocity b') = (-50)%float.
Proof.
  destruct (ProcessTileSeparationX_zero_separation
              (tileHeap 0.5) 1%nat (bodyA 0.5) 0 eq_refl eq_refl)
    as (h' & b' & Hrun & Hb & Hblk & _ & _ & Hpos & Hv & _).
  exists h', b'. repeat split; try assumption.
  apply Hpos. reflexivity.
Defined.

(** C5. Bounce against a tile, for a separation amount that is not 0: with
    bounce.x == 1 the absolute value of velocity.x is kept, with
    bounce.x == 0 velocity.x becomes 0. *)
Theorem ProcessTileSeparationX_bounce_energy (h : Heap) (body : loc)
  (b : Body.t) (x : number) :
  h !! body = Some (OBody b) ->
  (x =? 0)%float = false ->
  exists h' b',
    ProcessTileSeparationX body x h = Some (tt, h') /\
    h' !! body = Some (OBody b') /\
    ((Vector2.x (Body.bounce b) =? 1)%float = true ->
       abs (Vector2.x (Body.velocity b')) = abs (Vector2.x (Body.velocity b)))
    /\
    ((Vector2.x (Body.bounce b) =? 0)%float = true ->
       Vector2.x (Body.velocity b') = 0%float).
Proof.
  intros Hl _.
  destruct (ProcessTileSeparationX_body h body b x Hl) as (h' & Hrun & Hb & _).
  exists h', (bounceX (moveX x (blockX x b))).
  split; [assumption|]. split; [assumption|].
  rewrite ProcessTileSeparationX_effect. simpl. split.
  - intros H1. apply eqb_one_inv in H1. rewrite H1.
    change (1 =? 0)%float with false. cbv iota.
    now rewrite mul_one, abs_opp.
  - now intros ->.
Qed.

Lemma ProcessTileSeparationX_bounce_energy_witness :
  exists h' b',
    ProcessTileSeparationX 1%nat 42 (tileHeap 1) = Some (tt, h') /\
    h' !! 1%nat = Some (OBody b') /\
    Vector2.x (Body.velocity b') = (-100)%float /\
    abs (Vector2.x (Body.velocity b')) = 100%float.
Proof.
  destruct (ProcessTileSeparationX_bounce_energy
              (tileHeap 1) 1%nat (bodyA 1) 42 eq_refl eq_refl)
    as (h' & b' & Hrun & Hb & Hone & _).
  exists h', b'. split; [assumption|]. split; [assumption|].
  split; [|exact (Hone eq_refl)].
  destruct (ProcessTileSeparationX_body (tileHeap 1) 1%nat (bodyA 1) 42 eq_refl)
    as (h2 & Hrun2 & Hb2 & _).
  rewrite Hrun in Hrun2. injection Hrun2 as <-.
  rewrite Hb in Hb2. injection Hb2 as ->. reflexivity.
Defined.

(** C9. The call writes position.x, velocity.x, blocked.left and
    blocked.right of the body and nothing else: every other field of the
    body, and every other object of the heap, is as before. *)
Theorem ProcessTileSeparationX_frame (h : Heap) (body : loc) (b : Body.t)
  (x : number) :
  h !! body = Some (OBody b) ->
  exists h' b',
    ProcessTileSeparationX body x h = Some (tt, h') /\
    h' !! body = Some (OBody b') /\
    Vector2.y (Body.position b') = Vector2.y (Body.position b) /\
    Vector2.y (Body.velocity b') = Vector2.y (Body.velocity b) /\
    Body.bounce b' = Body.bounce b /\
    Blocked.up (Body.blocked b') = Blocked.up (Body.blocked b) /\
    Blocked.down (Body.blocked b') = Blocked.down (Body.blocked b) /\
    Body.prev b' = Body.prev b /\
    Body.width b' = Body.width b /\
    Body.height b' = Body.height b /\
    Body.acceleration b' = Body.acceleration b /\
    Body.drag b' = Body.drag b /\
    Body.gravity b' = Body.gravity b /\
    Body.mass b' = Body.mass b /\
    Body.immovable b' = Body.immovable b /\
    Body.collisionCategory b' = Body.collisionCategory b /\
    Body.collisionMask b' = Body.collisionMask b /\
    Body.enable b' = Body.enable b /\
    Body.touching b' = Body.touching b /\
    Body.embedded b' = Body.embedded b /\
    (forall l, l <> body -> h' !! l = h !! l).
Proof.
  intros Hl.
  destruct (ProcessTileSeparationX_body h body b x Hl) as (h' & Hrun & Hb & Hfr).
  exists h', (bounceX (moveX x (blockX x b))).
  split; [assumption|]. split; [assumption|].
  rewrite ProcessTileSeparationX_effect. simpl.
  repeat split; try reflexivity. assumption.
Qed.

Lemma ProcessTileSeparationX_frame_witness :
  exists h' b',
    ProcessTileSeparationX 1%nat (-42) (tileHeap 0.5) = Some (tt, h') /\
    h' !! 1%nat = Some (OBody b') /\
    Vector2.y (Body.position b') = 0%float /\
    Body.bounce b' = Body.bounce (bodyA 0.5) /\
    Body.touching b' = Body.touching (bodyA 0.5) /\
    h' !! 2%nat = Some (OTile wallTile).
Proof.
  destruct (ProcessTileSeparationX_frame
              (tileHeap 0.5) 1%nat (bodyA 0.5) (-42) eq_refl)
    as (h' & b' & Hrun & Hb & Hpy & _ & Hbnc & _ & _ & _ & _ & _ & _ & _
        & _ & _ & _ & _ & _ & _ & Htch & _ & Hfr).
  exists h', b'. repeat split; try assumption.
  rewrite Hfr; [reflexivity|]. discriminate.
Defined.

(** ** CheckOverlapY: running it *)

Lemma assign_alter (h : Heap) (l : loc) (f : Body.t -> Body.t) :
  isBody h l -> assign l f h = Some (tt, alter (onBody f) l h).
Proof.
  intros [b Hb]. rewrite (assign_run h l b f Hb). do 2 f_equal.
  rewrite <- (insert_id h l (OBody b) Hb) at 2.
  now rewrite alter_insert_eq.
Qed.

Lemma isBody_alter (h : Heap) (l l' : loc) (f : Body.t -> Body.t) :
  isBody h l -> isBody (alter (onBody f) l' h) l.
Proof.
  intros [b Hb]. unfold isBody. rewrite lookup_alter.
  destruct (decide (l' = l)) as [->|Hne].
  - rewrite Hb. now exists (f b).
  - now exists b.
Qed.

(** The four calls of a branch, run in their order. *)
Lemma flagPair_run (h : Heap) (body1 body2 : loc)
  (f1 g2 f1' g2' : Body.t -> Body.t) :
  isBody h body1 -> isBody h body2 ->
  (assign body1 f1;; assign body2 g2;; assign body1 f1';; assign body2 g2') h
  = Some (tt, flagPair f1 g2 f1' g2' body1 body2 h).
Proof.
  intros H1 H2. unfold mbind, JS_bind, flagPair.
  rewrite (assign_alter h body1 f1 H1).
  rewrite assign_alter by now apply isBody_alter.
  rewrite assign_alter by now do 2 apply isBody_alter.
  rewrite assign_alter by now do 3 apply isBody_alter.
  reflexivity.
Qed.

(** What the four calls leave at the first reference: the two setters of
    body1, and the two of body2 between them when the references are the
    same. *)
Lemma flagPair_lookup_1 (h : Heap) (body1 body2 : loc) (b1 : Body.t)
  (f1 g2 f1' g2' : Body.t -> Body.t) :
  h !! body1 = Some (OBody b1) ->
  flagPair f1 g2 f1' g2' body1 body2 h !! body1
  = Some (OBody (if decide (body2 = body1) then g2' (f1' (g2 (f1 b1)))
                 else f1' (f1 b1))).
Proof.
  intros Hb. unfold flagPair. rewrite !lookup_alter.
  repeat case_decide; try congruence; subst; rewrite Hb; reflexivity.
Qed.

Lemma flagPair_lookup_2 (h : Heap) (body1 body2 : loc) (b2 : Body.t)
  (f1 g2 f1' g2' : Body.t -> Body.t) :
  h !! body2 = Some (OBody b2) ->
  flagPair f1 g2 f1' g2' body1 body2 h !! body2
  = Some (OBody (if decide (body1 = body2) then g2' (f1' (g2 (f1 b2)))
                 else g2' (g2 b2))).
Proof.
  intros Hb. unfold flagPair. rewrite !lookup_alter.
  repeat case_decide; try congruence; subst; rewrite Hb; reflexivity.
Qed.

Lemma flagPair_frame (h : Heap) (body1 body2 l : loc)
  (f1 g2 f1' g2' : Body.t -> Body.t) :
  l <> body1 -> l <> body2 ->
  flagPair f1 g2 f1' g2' body1 body2 h !! l = h !! l.
Proof.
  intros H1 H2. unfold flagPair.
  now rewrite !lookup_alter_ne by congruence.
Qed.

(** On a vertical face [CheckOverlapY] needs both references to be bodies;
    it then returns the recomputed touching flag and leaves [flagsAfter]. *)
Lemma CheckOverlapY_run
  (update : Heap -> CollisionInfo.t -> CollisionInfo.t) (h : Heap)
  (body : loc) (collisionInfo : CollisionInfo.t) :
  isBody h (CollisionInfo.body1 (update h collisionInfo)) ->
  isBody h (CollisionInfo.body2 (update h collisionInfo)) ->
  CheckOverlapY update body collisionInfo h
  = Some (CollisionInfo.touching (update h collisionInfo),
          flagsAfter (update h collisionInfo) h).
Proof.
  intros H1 H2. unfold CheckOverlapY, flagsAfter.
  unfold mbind at 1. unfold JS_bind at 1. unfold callUpdate.
  set (ci := update h collisionInfo) in *.
  unfold mbind at 1. unfold JS_bind at 1.
  destruct (bool_decide (CollisionInfo.face ci = CONST.FACING_UP));
    [now rewrite flagPair_run|].
  destruct (bool_decide (CollisionInfo.face ci = CONST.FACING_DOWN));
    [now rewrite flagPair_run|].
  reflexivity.
Qed.

(** On any other face it dereferences nothing and writes nothing. *)
Lemma CheckOverlapY_other_face
  (update : Heap -> CollisionInfo.t -> CollisionInfo.t) (h : Heap)
  (body : loc) (collisionInfo : CollisionInfo.t) :
  vertical (CollisionInfo.face (update h collisionInfo)) = false ->
  CheckOverlapY update body collisionInfo h
  = Some (CollisionInfo.touching (update h collisionInfo), h).
Proof.
  unfold vertical, CheckOverlapY. intros Hv.
  apply orb_false_elim in Hv. destruct Hv as [Hu Hd].
  unfold mbind at 1. unfold JS_bind at 1. unfold callUpdate.
  set (ci := update h collisionInfo) in *.
  unfold mbind at 1. unfold JS_bind at 1.
  now rewrite Hu, Hd.
Qed.

(** Whenever [CheckOverlapY] returns, it returns the recomputed touching
    flag. *)
Lemma CheckOverlapY_result
  (update : Heap -> CollisionInfo.t -> CollisionInfo.t) (h h' : Heap)
  (body : loc) (collisionInfo : CollisionInfo.t) (r : bool) :
  CheckOverlapY update body collisionInfo h = Some (r, h') ->
  r = CollisionInfo.touching (update h collisionInfo).
Proof.
  unfold CheckOverlapY.
  unfold mbind at 1. unfold JS_bind at 1. unfold callUpdate.
  set (ci := update h collisionInfo).
  unfold mbind at 1. unfold JS_bind at 1.
  match goal with |- context [match ?c with _ => _ end] =>
    destruct c as [[[] h1]|] end; [|discriminate].
  unfold mret, JS_ret. congruence.
Qed.

(** ** CheckOverlapY: the claims *)

(** C6. On a vertical face the flags of the two bodies are raised as a
    mirrored pair: FACING_UP raises touching.up and blocked.up on body1 and
    touching.down and blocked.down on body2; FACING_DOWN raises the down
    flags on body1 and the up flags on body2. *)
Theorem CheckOverlapY_mirrored_faces
  (update : Heap -> CollisionInfo.t -> CollisionInfo.t) (h : Heap)
  (body : loc) (collisionInfo ci : CollisionInfo.t) (b1 b2 : Body.t) :
  update h collisionInfo = ci ->
  h !! CollisionInfo.body1 ci = Some (OBody b1) ->
  h !! CollisionInfo.body2 ci = Some (OBody b2) ->
  exists h' b1' b2',
    CheckOverlapY update body collisionInfo h
    = Some (CollisionInfo.touching ci, h') /\
    h' !! CollisionInfo.body1 ci = Some (OBody b1') /\
    h' !! CollisionInfo.body2 ci = Some (OBody b2') /\
    (CollisionInfo.face ci = CONST.FACING_UP ->
       Touching.up (Body.touching b1') = true /\
       Blocked.up (Body.blocked b1') = true /\
       Touching.down (Body.touching b2') = true /\
       Blocked.down (Body.blocked b2') = true) /\
    (CollisionInfo.face ci = CONST.FACING_DOWN ->
       Touching.down (Body.touching b1') = true /\
       Blocked.down (Body.blocked b1') = true /\
       Touching.up (Body.touching b2') = true /\
       Blocked.up (Body.blocked b2') = true).
Proof.
  intros <- H1 H2.
  rewrite CheckOverlapY_run by (eexists; eassumption).
  set (ci := update h collisionInfo) in *.
  unfold flagsAfter.
  destruct (CollisionInfo.face ci) eqn:Hface; simpl.
  1, 4, 5: exists h, b1, b2; repeat split; (assumption || discriminate).
  - eexists _, _, _. split; [reflexivity|].
    split; [exact (flagPair_lookup_1 _ _ _ _ _ _ _ _ H1)|].
    split; [exact (flagPair_lookup_2 _ _ _ _ _ _ _ _ H2)|].
    split; [|discriminate]. intros _.
    repeat case_decide; repeat split; reflexivity.
  - eexists _, _, _. split; [reflexivity|].
    split; [exact (flagPair_lookup_1 _ _ _ _ _ _ _ _ H1)|].
    split; [exact (flagPair_lookup_2 _ _ _ _ _ _ _ _ H2)|].
    split; [discriminate|]. intros _.
    repeat case_decide; repeat split; reflexivity.
Qed.

Lemma CheckOverlapY_mirrored_faces_witness :
  exists h' b1' b2',
    CheckOverlapY updateStill 2%nat restingInfo (pairHeap 40 32)
    = Some (true, h') /\
    h' !! 2%nat = Some (OBody b1') /\
    h' !! 1%nat = Some (OBody b2') /\
    Touching.up (Body.touching b1') = true /\
    Blocked.up (Body.blocked b1') = true /\
    Touching.down (Body.touching b2') = true /\
    Blocked.down (Body.blocked b2') = true.
Proof.
  destruct (CheckOverlapY_mirrored_faces updateStill (pairHeap 40 32) 2%nat
              restingInfo restingInfo (bodyB 40 32) (bodyA 0)
              eq_refl eq_refl eq_refl)
    as (h' & b1' & b2' & Hrun & Hb1 & Hb2 & Hup & _).
  exists h', b1', b2'.
  split; [assumption|]. split; [assumption|]. split; [assumption|].
  exact (Hup eq_refl).
Defined.

(** The blocked flags follow the recomputed face: on FACING_UP and
    FACING_DOWN they are raised on both bodies, on every other face the
    heap is left as it is; the touching flag of the recomputed record is
    the value returned and is not read before the flags are raised. *)
Theorem CheckOverlapY_blocked_follows_face
  (update : Heap -> CollisionInfo.t -> CollisionInfo.t) (h : Heap)
  (body : loc) (collisionInfo ci : CollisionInfo.t) (b1 b2 : Body.t) :
  update h collisionInfo = ci ->
  h !! CollisionInfo.body1 ci = Some (OBody b1) ->
  h !! CollisionInfo.body2 ci = Some (OBody b2) ->
  exists h' b1' b2',
    CheckOverlapY update body collisionInfo h
    = Some (CollisionInfo.touching ci, h') /\
    h' !! CollisionInfo.body1 ci = Some (OBody b1') /\
    h' !! CollisionInfo.body2 ci = Some (OBody b2') /\
    (CollisionInfo.face ci = CONST.FACING_UP ->
       Blocked.up (Body.blocked b1') = true /\
       Blocked.down (Body.blocked b2') = true) /\
    (CollisionInfo.face ci = CONST.FACING_DOWN ->
       Blocked.down (Body.blocked b1') = true /\
       Blocked.up (Body.blocked b2') = true) /\
    (CollisionInfo.face ci <> CONST.FACING_UP ->
     CollisionInfo.face ci <> CONST.FACING_DOWN ->
       h' = h).
Proof.
  intros <- H1 H2.
  rewrite CheckOverlapY_run by (eexists; eassumption).
  set (ci := update h collisionInfo) in *.
  unfold flagsAfter.
  destruct (CollisionInfo.face ci) eqn:Hface; simpl.
  1, 4, 5: exists h, b1, b2; repeat split; (assumption || discriminate).
  - eexists _, _, _. split; [reflexivity|].
    split; [exact (flagPair_lookup_1 _ _ _ _ _ _ _ _ H1)|].
    split; [exact (flagPair_lookup_2 _ _ _ _ _ _ _ _ H2)|].
    split; [|split; [discriminate|congruence]]. intros _.
    repeat case_decide; repeat split; reflexivity.
  - eexists _, _, _. split; [reflexivity|].
    split; [exact (flagPair_lookup_1 _ _ _ _ _ _ _ _ H1)|].
    split; [exact (flagPair_lookup_2 _ _ _ _ _ _ _ _ H2)|].
    split; [discriminate|]. split; [|congruence]. intros _.
    repeat case_decide; repeat split; reflexivity.
Qed.

Lemma CheckOverlapY_blocked_follows_face_witness :
  exists h' b1' b2',
    CheckOverlapY updateStill 1%nat deepInfo (pairHeap 40 16)
    = Some (false, h') /\
    h' !! 1%nat = Some (OBody b1') /\
    h' !! 2%nat = Some (OBody b2') /\
    Blocked.down (Body.blocked b1') = true /\
    Blocked.up (Body.blocked b2') = true.
Proof.
  destruct (CheckOverlapY_blocked_follows_face updateStill (pairHeap 40 16)
              1%nat deepInfo deepInfo (bodyA 0) (bodyB 40 16)
              eq_refl eq_refl eq_refl)
    as (h' & b1' & b2' & Hrun & Hb1 & Hb2 & _ & Hdown & _).
  exists h', b1', b2'.
  split; [assumption|]. split; [assumption|]. split; [assumption|].
  exact (Hdown eq_refl).
Defined.

(** What [flagsAfter] leaves at the two references of the record depends
    on the record and on the two bodies alone. *)
Lemma flagsAfter_local (h1 h2 : Heap) (ci : CollisionInfo.t)
  (c1 c2 : Body.t) :
  h1 !! CollisionInfo.body1 ci = Some (OBody c1) ->
  h2 !! CollisionInfo.body1 ci = Some (OBody c1) ->
  h1 !! CollisionInfo.body2 ci = Some (OBody c2) ->
  h2 !! CollisionInfo.body2 ci = Some (OBody c2) ->
  exists c1' c2',
    flagsAfter ci h1 !! CollisionInfo.body1 ci = Some (OBody c1') /\
    flagsAfter ci h2 !! CollisionInfo.body1 ci = Some (OBody c1') /\
    flagsAfter ci h1 !! CollisionInfo.body2 ci = Some (OBody c2') /\
    flagsAfter ci h2 !! CollisionInfo.body2 ci = Some (OBody c2').
Proof.
  intros H11 H21 H12 H22. unfold flagsAfter.
  destruct (bool_decide (CollisionInfo.face ci = CONST.FACING_UP)).
  - eexists _, _.
    rewrite (flagPair_lookup_1 h1 _ _ c1 _ _ _ _ H11).
    rewrite (flagPair_lookup_1 h2 _ _ c1 _ _ _ _ H21).
    rewrite (flagPair_lookup_2 h1 _ _ c2 _ _ _ _ H12).
    rewrite (flagPair_lookup_2 h2 _ _ c2 _ _ _ _ H22).
    repeat split; reflexivity.
  - destruct (bool_decide (CollisionInfo.face ci = CONST.FACING_DOWN)).
    + eexists _, _.
      rewrite (flagPair_lookup_1 h1 _ _ c1 _ _ _ _ H11).
      rewrite (flagPair_lookup_1 h2 _ _ c1 _ _ _ _ H21).
      rewrite (flagPair_lookup_2 h1 _ _ c2 _ _ _ _ H12).
      rewrite (flagPair_lookup_2 h2 _ _ c2 _ _ _ _ H22).
      repeat split; reflexivity.
    + exists c1, c2. repeat split; assumption.
Qed.

(** C8. Two runs from equal body and CollisionInfo states give equal
    results, whatever else the two heaps hold. For [ProcessTileSeparationX]:
    two bodies with the same record, at any references of any two heaps,
    separated by the same amount, are left with the same record. For
    [CheckOverlapY], with [CollisionInfo.update] the pairwise computation
    of the spec: two heaps that hold the same bodies at the references of
    the record and of the recomputed record give the same return value and
    leave the same records at body1 and at body2. *)
Theorem separation_deterministic
  (update : Heap -> CollisionInfo.t -> CollisionInfo.t) :
  pairwise update ->
  (forall (h1 h2 : Heap) (l1 l2 : loc) (b : Body.t) (x : number),
     h1 !! l1 = Some (OBody b) -> h2 !! l2 = Some (OBody b) ->
     exists k1 k2 b',
       ProcessTileSeparationX l1 x h1 = Some (tt, k1) /\
       ProcessTileSeparationX l2 x h2 = Some (tt, k2) /\
       k1 !! l1 = Some (OBody b') /\ k2 !! l2 = Some (OBody b')) /\
  (forall (h1 h2 : Heap) (body body' : loc)
          (collisionInfo ci : CollisionInfo.t) (c1 c2 : Body.t),
     h1 !! CollisionInfo.body1 collisionInfo
     = h2 !! CollisionInfo.body1 collisionInfo ->
     h1 !! CollisionInfo.body2 collisionInfo
     = h2 !! CollisionInfo.body2 collisionInfo ->
     update h1 collisionInfo = ci ->
     h1 !! CollisionInfo.body1 ci = Some (OBody c1) ->
     h2 !! CollisionInfo.body1 ci = Some (OBody c1) ->
     h1 !! CollisionInfo.body2 ci = Some (OBody c2) ->
     h2 !! CollisionInfo.body2 ci = Some (OBody c2) ->
     exists k1 k2 c1' c2',
       CheckOverlapY update body collisionInfo h1
       = Some (CollisionInfo.touching ci, k1) /\
       CheckOverlapY update body' collisionInfo h2
       = Some (CollisionInfo.touching ci, k2) /\
       k1 !! CollisionInfo.body1 ci = Some (OBody c1') /\
       k2 !! CollisionInfo.body1 ci = Some (OBody c1') /\
       k1 !! CollisionInfo.body2 ci = Some (OBody c2') /\
       k2 !! CollisionInfo.body2 ci = Some (OBody c2')).
Proof.
  intros Hpair. split.
  - intros h1 h2 l1 l2 b x Hk1 Hk2.
    destruct (ProcessTileSeparationX_body h1 l1 b x Hk1)
      as (k1 & Hr1 & Hb1 & _).
    destruct (ProcessTileSeparationX_body h2 l2 b x Hk2)
      as (k2 & Hr2 & Hb2 & _).
    now exists k1, k2, (bounceX (moveX x (blockX x b))).
  - intros h1 h2 body body' collisionInfo ci c1 c2
      Hin1 Hin2 Hci H11 H21 H12 H22.
    assert (Hci2 : update h2 collisionInfo = ci).
    { rewrite <- Hci. symmetry. now apply Hpair. }
    destruct (flagsAfter_local h1 h2 ci c1 c2 H11 H21 H12 H22)
      as (c1' & c2' & Ha & Hb & Hc & Hd).
    exists (flagsAfter ci h1), (flagsAfter ci h2), c1', c2'.
    split.
    { rewrite <- Hci at 1 2.
      apply CheckOverlapY_run; rewrite Hci; eexists; eassumption. }
    split.
    { rewrite <- Hci2 at 1 2.
      apply CheckOverlapY_run; rewrite Hci2; eexists; eassumption. }
    repeat split; assumption.
Qed.

Lemma separation_deterministic_witness :
  exists k1 k2 c1' c2',
    CheckOverlapY updateStill 2%nat restingInfo (pairHeap 40 32)
    = Some (true, k1) /\
    CheckOverlapY updateStill 2%nat restingInfo sceneHeap
    = Some (true, k2) /\
    k1 !! 2%nat = Some (OBody c1') /\
    k2 !! 2%nat = Some (OBody c1') /\
    k1 !! 1%nat = Some (OBody c2') /\
    k2 !! 1%nat = Some (OBody c2').
Proof.
  destruct (separation_deterministic updateStill
              (fun h1 h2 collisionInfo _ _ => eq_refl)) as [_ Hcheck].
  exact (Hcheck (pairHeap 40 32) sceneHeap 2%nat 2%nat
           restingInfo restingInfo (bodyB 40 32) (bodyA 0)
           eq_refl eq_refl eq_refl eq_refl eq_refl eq_refl eq_refl).
Defined.

(** C10. On a face that is neither FACING_UP nor FACING_DOWN the call
    writes no flag: the heap is left as it is. In every case the value
    returned is the touching flag of the recomputed CollisionInfo: the call
    returns it whenever both references are bodies, and returns nothing
    else. *)
Theorem CheckOverlapY_other_face_and_result
  (update : Heap -> CollisionInfo.t -> CollisionInfo.t) (h : Heap)
  (body : loc) (collisionInfo ci : CollisionInfo.t) :
  update h collisionInfo = ci ->
  (CollisionInfo.face ci <> CONST.FACING_UP ->
   CollisionInfo.face ci <> CONST.FACING_DOWN ->
     CheckOverlapY update body collisionInfo h
     = Some (CollisionInfo.touching ci, h)) /\
  (isBody h (CollisionInfo.body1 ci) ->
   isBody h (CollisionInfo.body2 ci) ->
     exists h',
       CheckOverlapY update body collisionInfo h
       = Some (CollisionInfo.touching ci, h')) /\
  (forall r h',
     CheckOverlapY update body collisionInfo h = Some (r, h') ->
     r = CollisionInfo.touching ci).
Proof.
  intros <-. split; [|split].
  - intros Hu Hd. apply CheckOverlapY_other_face.
    destruct (CollisionInfo.face (update h collisionInfo));
      (reflexivity || congruence).
  - intros H1 H2. eexists. now apply CheckOverlapY_run.
  - intros r h'. apply CheckOverlapY_result.
Qed.

Lemma CheckOverlapY_other_face_and_result_witness :
  CheckOverlapY updateStill 1%nat sideInfo (pairHeap 82 0)
  = Some (true, pairHeap 82 0).
Proof.
  destruct (CheckOverlapY_other_face_and_result updateStill (pairHeap 82 0)
              1%nat sideInfo sideInfo eq_refl) as [Hside _].
  apply Hside; discriminate.
Defined.

(** ** More binary64 facts: rounding keeps the sign and gives a number *)

Lemma iter_pos_invariant {A : Type} (P : A -> Prop) (f : A -> A) :
  (forall a, P a -> P (f a)) ->
  forall (n : positive) (a : A), P a -> P (SpecFloat.iter_pos f n a).
Proof.
  intros Hf. induction n as [n IH|n IH|]; intros a Ha; simpl.
  - apply IH, IH, Hf, Ha.
  - apply IH, IH, Ha.
  - apply Hf, Ha.
Qed.

Lemma shr_1_nonneg (mrs : shr_record) :
  0 <= shr_m mrs -> 0 <= shr_m (shr_1 mrs).
Proof.
  destruct mrs as [m r s]. simpl. intros Hm.
  destruct m as [|[p|p|]|p]; simpl; lia.
Qed.

Lemma shr_fexp_nonneg (m e : Z) (l : location) :
  0 <= m -> 0 <= shr_m (fst (shr_fexp prec emax m e l)).
Proof.
  intros Hm. unfold shr_fexp, shr.
  assert (H0 : 0 <= shr_m (shr_record_of_loc m l)).
  { destruct l as [|[]]; exact Hm. }
  destruct (fexp prec emax (Zdigits2 m + e) - e) as [|p|p]; simpl;
    try exact H0.
  apply (iter_pos_invariant (fun a => 0 <= shr_m a)); [|exact H0].
  apply shr_1_nonneg.
Qed.

Lemma round_nearest_even_nonneg (m : Z) (l : location) :
  0 <= m -> 0 <= round_nearest_even m l.
Proof.
  intros Hm. unfold round_nearest_even.
  destruct l as [|[]]; try destruct (Z.even m); lia.
Qed.

(** Rounding a nonnegative mantissa with sign [s] gives a zero, a finite
    number or an infinity of sign [s], never NaN. *)
Lemma binary_round_aux_signed (s : bool) (m e : Z) (l : location) :
  0 <= m -> SFsigned s (binary_round_aux prec emax s m e l).
Proof.
  intros Hm. unfold binary_round_aux.
  pose proof (shr_fexp_nonneg m e l Hm) as H1.
  destruct (shr_fexp prec emax m e l) as [mrs' e']. simpl in H1.
  pose proof (shr_fexp_nonneg
                (round_nearest_even (shr_m mrs') (loc_of_shr_record mrs'))
                e' loc_Exact
                (round_nearest_even_nonneg _ _ H1)) as H2.
  destruct (shr_fexp prec emax
              (round_nearest_even (shr_m mrs') (loc_of_shr_record mrs'))
              e' loc_Exact) as [mrs'' e'']. simpl in H2.
  destruct (shr_m mrs'') as [|p|p]; [reflexivity| |lia].
  destruct (e'' <=? emax - prec); reflexivity.
Qed.

Lemma SFmul_signed (a b : spec_float) (sa sb : bool) :
  SFsigned sa a -> SFsigned sb b -> SFnonzero a -> SFnonzero b ->
  SFsigned (xorb sa sb) (SF64mul a b).
Proof.
  destruct a as [s1|s1| |s1 m1 e1], b as [s2|s2| |s2 m2 e2];
    simpl; intros Ha Hb Hza Hzb; try contradiction; subst;
    try reflexivity.
  apply binary_round_aux_signed. lia.
Qed.

Lemma SFmul_finite (a b : spec_float) :
  SFfinite a -> SFfinite b -> SF64mul a b <> S754_nan.
Proof.
  destruct a as [s1|s1| |s1 m1 e1], b as [s2|s2| |s2 m2 e2];
    simpl; intros Ha Hb; try contradiction; try discriminate.
  pose proof (binary_round_aux_signed (xorb s1 s2) (Z.pos (m1 * m2))
                (e1 + e2) loc_Exact ltac:(lia)) as H.
  intros E. rewrite E in H. exact H.
Qed.

Lemma binary_normalize_number (m e : Z) (sz : bool) :
  binary_normalize prec emax m e sz <> S754_nan.
Proof.
  unfold binary_normalize, binary_round.
  destruct m as [|p|p]; [discriminate| |].
  - destruct (shl_align p e (fexp prec emax (Z.pos (digits2_pos p) + e)))
      as [mz ez].
    pose proof (binary_round_aux_signed false (Z.pos mz) ez loc_Exact
                  ltac:(lia)) as H.
    intros E. rewrite E in H. exact H.
  - destruct (shl_align p e (fexp prec emax (Z.pos (digits2_pos p) + e)))
      as [mz ez].
    pose proof (binary_round_aux_signed true (Z.pos mz) ez loc_Exact
                  ltac:(lia)) as H.
    intros E. rewrite E in H. exact H.
Qed.

Lemma SFsub_finite (a b : spec_float) :
  SFfinite a -> SFfinite b -> SF64sub a b <> S754_nan.
Proof.
  destruct a as [s1|s1| |s1 m1 e1], b as [s2|s2| |s2 m2 e2];
    simpl; intros Ha Hb; try contradiction; try discriminate.
  - destruct s1, s2; discriminate.
  - apply binary_normalize_number.
Qed.

Lemma is_nan_Prim2SF (a : float) :
  is_nan a = true <-> Prim2SF a = S754_nan.
Proof.
  unfold is_nan. rewrite FloatAxioms.eqb_spec. unfold SFeqb. split.
  - intros H. destruct (Prim2SF a) eqn:E; try reflexivity;
      rewrite SFcompare_refl in H by discriminate; discriminate.
  - now intros ->.
Qed.

Lemma is_nan_false_Prim2SF (a : float) :
  Prim2SF a <> S754_nan -> is_nan a = false.
Proof.
  intros H. destruct (is_nan a) eqn:E; [|reflexivity].
  now apply is_nan_Prim2SF in E.
Qed.

Lemma is_finite_Prim2SF (a : float) :
  is_finite a = true -> SFfinite (Prim2SF a).
Proof.
  unfold is_finite. intros H. apply negb_true_iff, orb_false_elim in H.
  destruct H as [Hn Hi].
  destruct (Prim2SF a) as [s|s| |s m e] eqn:E; simpl; try exact I.
  - unfold is_infinity in Hi.
    rewrite FloatAxioms.eqb_spec, FloatAxioms.abs_spec, E in Hi.
    discriminate.
  - apply is_nan_Prim2SF in E. congruence.
Qed.

Lemma ltb_zero_signed (v : float) :
  (0 <? v)%float = true ->
  SFsigned false (Prim2SF v) /\ SFnonzero (Prim2SF v).
Proof.
  rewrite FloatAxioms.ltb_spec, Prim2SF_zero.
  destruct (Prim2SF v) as [s|s| |s m e]; unfold SFltb, SFcompare; simpl;
    try discriminate; destruct s; try discriminate; now split.
Qed.

Lemma ltb_signed_zero (v : float) :
  (v <? 0)%float = true ->
  SFsigned true (Prim2SF v) /\ SFnonzero (Prim2SF v).
Proof.
  rewrite FloatAxioms.ltb_spec, Prim2SF_zero.
  destruct (Prim2SF v) as [s|s| |s m e]; unfold SFltb, SFcompare; simpl;
    try discriminate; destruct s; try discriminate; now split.
Qed.

Lemma leb_zero_signed (b : float) :
  (0 <=? b)%float = true -> (b =? 0)%float = false ->
  SFsigned false (Prim2SF b) /\ SFnonzero (Prim2SF b).
Proof.
  rewrite FloatAxioms.leb_spec, FloatAxioms.eqb_spec, Prim2SF_zero.
  destruct (Prim2SF b) as [s|s| |s m e]; unfold SFleb, SFeqb, SFcompare;
    simpl; try discriminate; destruct s; try discriminate; now split.
Qed.

Lemma SFsigned_leb_zero (r : spec_float) :
  SFsigned true r -> SFleb r (S754_zero false) = true.
Proof. destruct r as [s|s| |s m e]; simpl; intros H; now subst. Qed.

Lemma SFsigned_zero_leb (r : spec_float) :
  SFsigned false r -> SFleb (S754_zero false) r = true.
Proof. destruct r as [s|s| |s m e]; simpl; intros H; now subst. Qed.

Lemma SFsigned_opp (s : bool) (f : spec_float) :
  SFsigned s f -> SFsigned (negb s) (SFopp f).
Proof. destruct f; simpl; intros H; now subst. Qed.

Lemma SFnonzero_opp (f : spec_float) : SFnonzero f -> SFnonzero (SFopp f).
Proof. now destruct f. Qed.

Lemma SFfinite_opp (f : spec_float) : SFfinite f -> SFfinite (SFopp f).
Proof. now destruct f. Qed.

Lemma opp_involutive (v : float) : (- - v)%float = v.
Proof.
  apply Prim2SF_inj. rewrite !FloatAxioms.opp_spec.
  destruct (Prim2SF v); simpl; now rewrite ?negb_involutive.
Qed.

(** The reflected velocity [-v * b] for a bounce that is not negative: it
    is not on the side of [v]. *)
Lemma reflect_positive (v b : float) :
  (0 <=? b)%float = true -> (b =? 0)%float = false ->
  (0 <? v)%float = true -> (- v * b <=? 0)%float = true.
Proof.
  intros Hb Hb0 Hv.
  destruct (leb_zero_signed b Hb Hb0) as [Hsb Hzb].
  destruct (ltb_zero_signed v Hv) as [Hsv Hzv].
  rewrite FloatAxioms.leb_spec, FloatAxioms.mul_spec, FloatAxioms.opp_spec,
    Prim2SF_zero.
  apply SFsigned_leb_zero.
  apply (SFmul_signed _ _ true false);
    auto using SFsigned_opp, SFnonzero_opp.
  exact (SFsigned_opp false _ Hsv).
Qed.

Lemma reflect_negative (v b : float) :
  (0 <=? b)%float = true -> (b =? 0)%float = false ->
  (v <? 0)%float = true -> (0 <=? - v * b)%float = true.
Proof.
  intros Hb Hb0 Hv.
  destruct (leb_zero_signed b Hb Hb0) as [Hsb Hzb].
  destruct (ltb_signed_zero v Hv) as [Hsv Hzv].
  rewrite FloatAxioms.leb_spec, FloatAxioms.mul_spec, FloatAxioms.opp_spec,
    Prim2SF_zero.
  apply SFsigned_zero_leb.
  apply (SFmul_signed _ _ false false);
    auto using SFnonzero_opp.
  exact (SFsigned_opp true _ Hsv).
Qed.

(** ** ProcessTileSeparationX: further properties *)

(** X1. The call returns exactly when its reference denotes a Body: on a
    tile or on a reference that denotes nothing it raises. *)
Theorem ProcessTileSeparationX_returns_iff_body (h : Heap) (body : loc)
  (x : number) :
  is_Some (ProcessTileSeparationX body x h) <-> isBody h body.
Proof.
  split.
  - intros [r Hr]. destruct (h !! body) as [[b|t]|] eqn:E.
    + now exists b.
    + rewrite ProcessTileSeparationX_TypeError in Hr; [discriminate|].
      intros [b Hb]. congruence.
    + rewrite ProcessTileSeparationX_TypeError in Hr; [discriminate|].
      intros [b Hb]. congruence.
  - intros [b Hb]. rewrite (ProcessTileSeparationX_run h body b x Hb).
    now eexists.
Qed.

(** X2. The call never clears a blocked flag: each of the four flags that
    was raised before the call is raised after it. *)
Theorem ProcessTileSeparationX_keeps_blocked (h : Heap) (body : loc)
  (b : Body.t) (x : number) :
  h !! body = Some (OBody b) ->
  exists h' b',
    ProcessTileSeparationX body x h = Some (tt, h') /\
    h' !! body = Some (OBody b') /\
    (Blocked.up (Body.blocked b) = true ->
       Blocked.up (Body.blocked b') = true) /\
    (Blocked.down (Body.blocked b) = true ->
       Blocked.down (Body.blocked b') = true) /\
    (Blocked.left (Body.blocked b) = true ->
       Blocked.left (Body.blocked b') = true) /\
    (Blocked.right (Body.blocked b) = true ->
       Blocked.right (Body.blocked b') = true).
Proof.
  intros Hl.
  destruct (ProcessTileSeparationX_body h body b x Hl) as (h' & Hrun & Hb & _).
  exists h', (bounceX (moveX x (blockX x b))).
  split; [assumption|]. split; [assumption|].
  rewrite ProcessTileSeparationX_effect. simpl.
  repeat split; try (intros H; exact H).
  - intros ->. now destruct (x <? 0)%float.
  - intros ->. now destruct (x <? 0)%float, (gtb x 0).
Qed.

Lemma ProcessTileSeparationX_keeps_blocked_witness :
  exists h' b',
    ProcessTileSeparationX 1%nat 42 leftBlockedHeap = Some (tt, h') /\
    h' !! 1%nat = Some (OBody b') /\
    Blocked.left (Body.blocked b') = true.
Proof.
  destruct (ProcessTileSeparationX_keeps_blocked
              leftBlockedHeap 1%nat leftBlockedA 42 eq_refl)
    as (h' & b' & Hrun & Hb & _ & _ & Hleft & _).
  exists h', b'. split; [assumption|]. split; [assumption|].
  exact (Hleft eq_refl).
Defined.

(** X3. A separation amount that is NaN raises no blocked flag and turns
    position.x into NaN. *)
Theorem ProcessTileSeparationX_nan_separation (h : Heap) (body : loc)
  (b : Body.t) (x : number) :
  h !! body = Some (OBody b) ->
  is_nan x = true ->
  exists h' b',
    ProcessTileSeparationX body x h = Some (tt, h') /\
    h' !! body = Some (OBody b') /\
    Body.blocked b' = Body.blocked b /\
    is_nan (Vector2.x (Body.position b')) = true.
Proof.
  intros Hl Hx. apply is_nan_Prim2SF in Hx.
  destruct (ProcessTileSeparationX_body h body b x Hl) as (h' & Hrun & Hb & _).
  exists h', (bounceX (moveX x (blockX x b))).
  split; [assumption|]. split; [assumption|].
  rewrite ProcessTileSeparationX_effect. simpl.
  assert (Hlt : (x <? 0)%float = false).
  { rewrite FloatAxioms.ltb_spec, Hx. reflexivity. }
  assert (Hgt : gtb x 0 = false).
  { unfold gtb. rewrite FloatAxioms.ltb_spec, Hx, Prim2SF_zero. reflexivity. }
  rewrite Hlt, Hgt. split; [now destruct (Body.blocked b)|].
  apply is_nan_Prim2SF. rewrite FloatAxioms.sub_spec, Hx.
  now destruct (Prim2SF (Vector2.x (Body.position b))).
Qed.

Lemma ProcessTileSeparationX_nan_separation_witness :
  exists h' b',
    ProcessTileSeparationX 1%nat nan (tileHeap 0) = Some (tt, h') /\
    h' !! 1%nat = Some (OBody b') /\
    Body.blocked b' = Body.blocked (bodyA 0) /\
    is_nan (Vector2.x (Body.position b')) = true.
Proof.
  exact (ProcessTileSeparationX_nan_separation
           (tileHeap 0) 1%nat (bodyA 0) nan eq_refl eq_refl).
Defined.

(** X4. With a bounce that is not negative the body never keeps moving
    into the tile: a velocity.x above 0 becomes one that is at most 0, and
    a velocity.x below 0 becomes one that is at least 0. *)
Theorem ProcessTileSeparationX_reflects_velocity (h : Heap) (body : loc)
  (b : Body.t) (x : number) :
  h !! body = Some (OBody b) ->
  (0 <=? Vector2.x (Body.bounce b))%float = true ->
  exists h' b',
    ProcessTileSeparationX body x h = Some (tt, h') /\
    h' !! body = Some (OBody b') /\
    ((0 <? Vector2.x (Body.velocity b))%float = true ->
       (Vector2.x (Body.velocity b') <=? 0)%float = true) /\
    ((Vector2.x (Body.velocity b) <? 0)%float = true ->
       (0 <=? Vector2.x (Body.velocity b'))%float = true).
Proof.
  intros Hl Hbnc.
  destruct (ProcessTileSeparationX_body h body b x Hl) as (h' & Hrun & Hb & _).
  exists h', (bounceX (moveX x (blockX x b))).
  split; [assumption|]. split; [assumption|].
  rewrite ProcessTileSeparationX_effect. simpl.
  destruct (Vector2.x (Body.bounce b) =? 0)%float eqn:Hz.
  - split; intros _; reflexivity.
  - split; intros Hv.
    + now apply reflect_positive.
    + now apply reflect_negative.
Qed.

Lemma ProcessTileSeparationX_reflects_velocity_witness :
  exists h' b',
    ProcessTileSeparationX 1%nat 42 (tileHeap 0.5) = Some (tt, h') /\
    h' !! 1%nat = Some (OBody b') /\
    (Vector2.x (Body.velocity b') <=? 0)%float = true.
Proof.
  destruct (ProcessTileSeparationX_reflects_velocity
              (tileHeap 0.5) 1%nat (bodyA 0.5) 42 eq_refl eq_refl)
    as (h' & b' & Hrun & Hb & Hpos & _).
  exists h', b'. split; [assumption|]. split; [assumption|].
  exact (Hpos eq_refl).
Defined.

(** X5. Finite numbers in, numbers out: when position.x, velocity.x,
    bounce.x and the separation amount are finite, neither position.x nor
    velocity.x is NaN after the call. *)
Theorem ProcessTileSeparationX_finite_no_nan (h : Heap) (body : loc)
  (b : Body.t) (x : number) :
  h !! body = Some (OBody b) ->
  is_finite x = true ->
  is_finite (Vector2.x (Body.position b)) = true ->
  is_finite (Vector2.x (Body.velocity b)) = true ->
  is_finite (Vector2.x (Body.bounce b)) = true ->
  exists h' b',
    ProcessTileSeparationX body x h = Some (tt, h') /\
    h' !! body = Some (OBody b') /\
    is_nan (Vector2.x (Body.position b')) = false /\
    is_nan (Vector2.x (Body.velocity b')) = false.
Proof.
  intros Hl Hx Hp Hv Hbnc.
  apply is_finite_Prim2SF in Hx, Hp, Hv, Hbnc.
  destruct (ProcessTileSeparationX_body h body b x Hl) as (h' & Hrun & Hb & _).
  exists h', (bounceX (moveX x (blockX x b))).
  split; [assumption|]. split; [assumption|].
  rewrite ProcessTileSeparationX_effect. simpl. split.
  - apply is_nan_false_Prim2SF. rewrite FloatAxioms.sub_spec.
    now apply SFsub_finite.
  - destruct (Vector2.x (Body.bounce b) =? 0)%float; [reflexivity|].
    apply is_nan_false_Prim2SF.
    rewrite FloatAxioms.mul_spec, FloatAxioms.opp_spec.
    apply SFmul_finite; [now apply SFfinite_opp|assumption].
Qed.

Lemma ProcessTileSeparationX_finite_no_nan_witness :
  exists h' b',
    ProcessTileSeparationX 1%nat 42 (tileHeap 0.5) = Some (tt, h') /\
    h' !! 1%nat = Some (OBody b') /\
    is_nan (Vector2.x (Body.position b')) = false /\
    is_nan (Vector2.x (Body.velocity b')) = false.
Proof.
  exact (ProcessTileSeparationX_finite_no_nan
           (tileHeap 0.5) 1%nat (bodyA 0.5) 42
           eq_refl eq_refl eq_refl eq_refl eq_refl).
Defined.

(** Two calls on the same body, one after the other. *)
Lemma ProcessTileSeparationX_twice_run (h : Heap) (body : loc) (b : Body.t)
  (x1 x2 : number) :
  h !! body = Some (OBody b) ->
  (ProcessTileSeparationX body x1;; ProcessTileSeparationX body x2) h
  = Some (tt, <[body := OBody (bounceX (moveX x2 (blockX x2
                                 (bounceX (moveX x1 (blockX x1 b))))))]> h).
Proof.
  intros Hl. unfold mbind, JS_bind.
  rewrite (ProcessTileSeparationX_run h body b x1 Hl).
  rewrite (ProcessTileSeparationX_run _ body
             (bounceX (moveX x1 (blockX x1 b))) x2)
    by apply lookup_insert_eq.
  now rewrite insert_insert_eq.
Qed.

(** X6. Separations accumulate: after a call with x1 and then one with x2
    position.x is [(position.x - x1) - x2], and when the two amounts have
    opposite signs both blocked.left and blocked.right are raised. *)
Theorem ProcessTileSeparationX_twice_accumulates (h : Heap) (body : loc)
  (b : Body.t) (x1 x2 : number) :
  h !! body = Some (OBody b) ->
  exists h' b',
    (ProcessTileSeparationX body x1;; ProcessTileSeparationX body x2) h
    = Some (tt, h') /\
    h' !! body = Some (OBody b') /\
    Vector2.x (Body.position b')
    = (Vector2.x (Body.position b) - x1 - x2)%float /\
    ((x1 <? 0)%float = true -> gtb x2 0 = true ->
       Blocked.left (Body.blocked b') = true /\
       Blocked.right (Body.blocked b') = true) /\
    (gtb x1 0 = true -> (x2 <? 0)%float = true ->
       Blocked.left (Body.blocked b') = true /\
       Blocked.right (Body.blocked b') = true).
Proof.
  intros Hl. eexists _, _.
  split; [exact (ProcessTileSeparationX_twice_run h body b x1 x2 Hl)|].
  split; [apply lookup_insert_eq|].
  rewrite (ProcessTileSeparationX_effect (bounceX (moveX x1 (blockX x1 b)))).
  rewrite (ProcessTileSeparationX_effect b). simpl.
  split; [reflexivity|]. split.
  - intros H1 H2. rewrite H1, H2, (gtb_zero_not_lt x2 H2). now split.
  - intros H1 H2. rewrite H1, H2, (gtb_zero_not_lt x1 H1). now split.
Qed.

Lemma ProcessTileSeparationX_twice_accumulates_witness :
  exists h' b',
    (ProcessTileSeparationX 1%nat 42;; ProcessTileSeparationX 1%nat (-10))
      (tileHeap 0)
    = Some (tt, h') /\
    h' !! 1%nat = Some (OBody b') /\
    Vector2.x (Body.position b') = 18%float /\
    Blocked.left (Body.blocked b') = true /\
    Blocked.right (Body.blocked b') = true.
Proof.
  destruct (ProcessTileSeparationX_twice_accumulates
              (tileHeap 0) 1%nat (bodyA 0) 42 (-10) eq_refl)
    as (h' & b' & Hrun & Hb & Hpos & _ & Hrl).
  exists h', b'. split; [assumption|]. split; [assumption|].
  split; [assumption|]. exact (Hrl eq_refl eq_refl).
Defined.

(** X7. Two bounces: with bounce.x == 1 a second call gives the body its
    first velocity.x back, exactly; with bounce.x == 0 velocity.x is 0
    after the second call as after the first. *)
Theorem ProcessTileSeparationX_twice_velocity (h : Heap) (body : loc)
  (b : Body.t) (x1 x2 : number) :
  h !! body = Some (OBody b) ->
  exists h' b',
    (ProcessTileSeparationX body x1;; ProcessTileSeparationX body x2) h
    = Some (tt, h') /\
    h' !! body = Some (OBody b') /\
    ((Vector2.x (Body.bounce b) =? 1)%float = true ->
       Vector2.x (Body.velocity b') = Vector2.x (Body.velocity b)) /\
    ((Vector2.x (Body.bounce b) =? 0)%float = true ->
       Vector2.x (Body.velocity b') = 0%float).
Proof.
  intros Hl. eexists _, _.
  split; [exact (ProcessTileSeparationX_twice_run h body b x1 x2 Hl)|].
  split; [apply lookup_insert_eq|].
  rewrite (ProcessTileSeparationX_effect (bounceX (moveX x1 (blockX x1 b)))).
  rewrite (ProcessTileSeparationX_effect b). simpl. split.
  - intros H1. apply eqb_one_inv in H1. rewrite H1.
    change (1 =? 0)%float with false. cbv iota.
    now rewrite !mul_one, opp_involutive.
  - now intros ->.
Qed.

Lemma ProcessTileSeparationX_twice_velocity_witness :
  exists h' b',
    (ProcessTileSeparationX 1%nat 42;; ProcessTileSeparationX 1%nat (-10))
      (tileHeap 1)
    = Some (tt, h') /\
    h' !! 1%nat = Some (OBody b') /\
    Vector2.x (Body.velocity b') = 100%float.
Proof.
  destruct (ProcessTileSeparationX_twice_velocity
              (tileHeap 1) 1%nat (bodyA 1) 42 (-10) eq_refl)
    as (h' & b' & Hrun & Hb & Hone & _).
  exists h', b'. split; [assumption|]. split; [assumption|].
  exact (Hone eq_refl).
Defined.

(** ** CheckOverlapY: further properties *)

Lemma isBody_dec (h : Heap) (l : loc) : isBody h l \/ ~ isBody h l.
Proof.
  destruct (h !! l) as [[b|t]|] eqn:E.
  - left. now exists b.
  - right. intros [b Hb]. congruence.
  - right. intros [b Hb]. congruence.
Qed.

Lemma isBody_alter_inv (h : Heap) (l l' : loc) (f : Body.t -> Body.t) :
  isBody (alter (onBody f) l' h) l -> isBody h l.
Proof.
  intros [b Hb]. rewrite lookup_alter in Hb.
  destruct (decide (l' = l)) as [->|Hne]; [|now exists b].
  destruct (h !! l) as [[b0|t]|] eqn:E; simpl in Hb; try discriminate.
  now exists b0.
Qed.

(** The four calls of a branch raise as soon as one of the two references
    is not a Body. *)
Lemma flagPair_TypeError (h : Heap) (body1 body2 : loc)
  (f1 g2 f1' g2' : Body.t -> Body.t) :
  ~ (isBody h body1 /\ isBody h body2) ->
  (assign body1 f1;; assign body2 g2;; assign body1 f1';; assign body2 g2') h
  = None.
Proof.
  intros Hno. unfold mbind, JS_bind.
  destruct (isBody_dec h body1) as [H1|H1].
  - rewrite (assign_alter h body1 f1 H1).
    rewrite assign_TypeError; [reflexivity|].
    intros H2. apply isBody_alter_inv in H2. now apply Hno.
  - now rewrite assign_TypeError.
Qed.

Lemma CheckOverlapY_TypeError
  (update : Heap -> CollisionInfo.t -> CollisionInfo.t) (h : Heap)
  (body : loc) (collisionInfo : CollisionInfo.t) :
  vertical (CollisionInfo.face (update h collisionInfo)) = true ->
  ~ (isBody h (CollisionInfo.body1 (update h collisionInfo)) /\
     isBody h (CollisionInfo.body2 (update h collisionInfo))) ->
  CheckOverlapY update body collisionInfo h = None.
Proof.
  unfold vertical, CheckOverlapY. intros Hv Hno.
  unfold mbind at 1. unfold JS_bind at 1. unfold callUpdate.
  set (ci := update h collisionInfo) in *.
  unfold mbind at 1. unfold JS_bind at 1.
  destruct (bool_decide (CollisionInfo.face ci = CONST.FACING_UP));
    [now rewrite flagPair_TypeError|].
  destruct (bool_decide (CollisionInfo.face ci = CONST.FACING_DOWN));
    [now rewrite flagPair_TypeError|].
  discriminate.
Qed.

Lemma vertical_false (face : CONST.Facing) :
  vertical face = false <->
  face <> CONST.FACING_UP /\ face <> CONST.FACING_DOWN.
Proof.
  destruct face; unfold vertical; simpl; split;
    try (intros _; split; discriminate); try discriminate;
    intros [H1 H2]; congruence.
Qed.

(** Whenever the call returns, the heap it leaves is [flagsAfter], and on a
    vertical face both references were bodies. *)
Lemma CheckOverlapY_Some_inv
  (update : Heap -> CollisionInfo.t -> CollisionInfo.t) (h h' : Heap)
  (body : loc) (collisionInfo : CollisionInfo.t) (r : bool) :
  CheckOverlapY update body collisionInfo h = Some (r, h') ->
  h' = flagsAfter (update h collisionInfo) h /\
  (vertical (CollisionInfo.face (update h collisionInfo)) = true ->
   isBody h (CollisionInfo.body1 (update h collisionInfo)) /\
   isBody h (CollisionInfo.body2 (update h collisionInfo))).
Proof.
  intros Hrun.
  destruct (vertical (CollisionInfo.face (update h collisionInfo))) eqn:Hv.
  - destruct (isBody_dec h (CollisionInfo.body1 (update h collisionInfo)))
      as [H1|H1];
    [destruct (isBody_dec h (CollisionInfo.body2 (update h collisionInfo)))
       as [H2|H2]|].
    + rewrite (CheckOverlapY_run update h body collisionInfo H1 H2) in Hrun.
      injection Hrun as _ <-. now split.
    + rewrite CheckOverlapY_TypeError in Hrun; [discriminate|assumption|].
      now intros [_ H].
    + rewrite CheckOverlapY_TypeError in Hrun; [discriminate|assumption|].
      now intros [H _].
  - rewrite (CheckOverlapY_other_face update h body collisionInfo Hv) in Hrun.
    injection Hrun as _ <-. split; [|discriminate].
    unfold vertical in Hv. apply orb_false_elim in Hv. destruct Hv as [Hu Hd].
    unfold flagsAfter. now rewrite Hu, Hd.
Qed.

(** X8. The call returns exactly when the recomputed face is not vertical
    or both references of the recomputed record denote bodies: on
    FACING_UP and FACING_DOWN a reference that is not a Body makes it
    raise, on every other face the references are never used. *)
Theorem CheckOverlapY_returns_iff
  (update : Heap -> CollisionInfo.t -> CollisionInfo.t) (h : Heap)
  (body : loc) (collisionInfo : CollisionInfo.t) :
  is_Some (CheckOverlapY update body collisionInfo h) <->
  (CollisionInfo.face (update h collisionInfo) <> CONST.FACING_UP /\
   CollisionInfo.face (update h collisionInfo) <> CONST.FACING_DOWN) \/
  (isBody h (CollisionInfo.body1 (update h collisionInfo)) /\
   isBody h (CollisionInfo.body2 (update h collisionInfo))).
Proof.
  split.
  - intros [[r h'] Hrun].
    destruct (CheckOverlapY_Some_inv update h h' body collisionInfo r Hrun)
      as [_ Hbodies].
    destruct (vertical (CollisionInfo.face (update h collisionInfo))) eqn:Hv.
    + right. now apply Hbodies.
    + left. now apply vertical_false.
  - intros [Hface|[H1 H2]].
    + apply vertical_false in Hface.
      rewrite (CheckOverlapY_other_face update h body collisionInfo Hface).
      now eexists.
    + rewrite (CheckOverlapY_run update h body collisionInfo H1 H2).
      now eexists.
Qed.

(** X9. Whenever the call returns, every object at a reference other than
    body1 and body2 of the recomputed record is as it was, and so is every
    tile of the heap. *)
Theorem CheckOverlapY_frame
  (update : Heap -> CollisionInfo.t -> CollisionInfo.t) (h h' : Heap)
  (body : loc) (collisionInfo : CollisionInfo.t) (r : bool) :
  CheckOverlapY update body collisionInfo h = Some (r, h') ->
  (forall l,
     l <> CollisionInfo.body1 (update h collisionInfo) ->
     l <> CollisionInfo.body2 (update h collisionInfo) ->
     h' !! l = h !! l) /\
  (forall t tile, h !! t = Some (OTile tile) -> h' !! t = Some (OTile tile)).
Proof.
  intros Hrun.
  destruct (CheckOverlapY_Some_inv update h h' body collisionInfo r Hrun)
    as [-> Hbodies].
  set (ci := update h collisionInfo) in *.
  assert (Hfr : forall l,
             l <> CollisionInfo.body1 ci -> l <> CollisionInfo.body2 ci ->
             flagsAfter ci h !! l = h !! l).
  { intros l H1 H2. unfold flagsAfter.
    repeat case_bool_decide; try reflexivity; now apply flagPair_frame. }
  split; [exact Hfr|].
  intros t tile Ht.
  destruct (vertical (CollisionInfo.face ci)) eqn:Hv.
  - destruct (Hbodies eq_refl) as [[b1 Hb1] [b2 Hb2]].
    rewrite Hfr; [assumption| |]; intros ->; congruence.
  - unfold vertical in Hv. apply orb_false_elim in Hv. destruct Hv as [Hu Hd].
    unfold flagsAfter. now rewrite Hu, Hd.
Qed.

Lemma CheckOverlapY_frame_witness :
  exists h',
    CheckOverlapY updateStill 2%nat restingInfo sceneHeap = Some (true, h') /\
    h' !! 3%nat = Some (OTile wallTile).
Proof.
  exists (flagsAfter restingInfo sceneHeap).
  assert (Hrun : CheckOverlapY updateStill 2%nat restingInfo sceneHeap
                 = Some (true, flagsAfter restingInfo sceneHeap)).
  { reflexivity. }
  split; [exact Hrun|].
  destruct (CheckOverlapY_frame updateStill sceneHeap _ 2%nat restingInfo
              true Hrun) as [_ Htiles].
  apply Htiles. reflexivity.
Defined.

(** ** The two functions in sequence *)

(** X10. A tile separation on X after the vertical check keeps what the
    check raised on body1: after FACING_UP its touching.up and blocked.up
    are still raised, after FACING_DOWN its touching.down and
    blocked.down. *)
Theorem CheckOverlapY_then_ProcessTileSeparationX
  (update : Heap -> CollisionInfo.t -> CollisionInfo.t) (h : Heap)
  (body : loc) (collisionInfo ci : CollisionInfo.t) (b1 b2 : Body.t)
  (x : number) :
  update h collisionInfo = ci ->
  h !! CollisionInfo.body1 ci = Some (OBody b1) ->
  h !! CollisionInfo.body2 ci = Some (OBody b2) ->
  exists h' b1',
    (CheckOverlapY update body collisionInfo;;
     ProcessTileSeparationX (CollisionInfo.body1 ci) x) h = Some (tt, h') /\
    h' !! CollisionInfo.body1 ci = Some (OBody b1') /\
    (CollisionInfo.face ci = CONST.FACING_UP ->
       Touching.up (Body.touching b1') = true /\
       Blocked.up (Body.blocked b1') = true) /\
    (CollisionInfo.face ci = CONST.FACING_DOWN ->
       Touching.down (Body.touching b1') = true /\
       Blocked.down (Body.blocked b1') = true).
Proof.
  intros <- H1 H2.
  unfold mbind at 1. unfold JS_bind at 1.
  rewrite CheckOverlapY_run by (eexists; eassumption).
  set (ci := update h collisionInfo) in *.
  assert (Hmid : exists bm,
            flagsAfter ci h !! CollisionInfo.body1 ci = Some (OBody bm) /\
            (CollisionInfo.face ci = CONST.FACING_UP ->
               Touching.up (Body.touching bm) = true /\
               Blocked.up (Body.blocked bm) = true) /\
            (CollisionInfo.face ci = CONST.FACING_DOWN ->
               Touching.down (Body.touching bm) = true /\
               Blocked.down (Body.blocked bm) = true)).
  { unfold flagsAfter.
    destruct (CollisionInfo.face ci) eqn:Hface; simpl.
    1, 4, 5: exists b1; repeat split; (assumption || discriminate).
    - eexists. split; [exact (flagPair_lookup_1 _ _ _ _ _ _ _ _ H1)|].
      split; [|discriminate]. intros _.
      case_decide; split; reflexivity.
    - eexists. split; [exact (flagPair_lookup_1 _ _ _ _ _ _ _ _ H1)|].
      split; [discriminate|]. intros _.
      case_decide; split; reflexivity. }
  destruct Hmid as (bm & Hbm & Hup & Hdown).
  destruct (ProcessTileSeparationX_body _ _ bm x Hbm) as (h' & Hrun & Hb & _).
  exists h', (bounceX (moveX x (blockX x bm))).
  split; [exact Hrun|]. split; [exact Hb|].
  rewrite ProcessTileSeparationX_effect. simpl.
  split; [exact Hup|exact Hdown].
Qed.

Lemma CheckOverlapY_then_ProcessTileSeparationX_witness :
  exists h' b1',
    (CheckOverlapY updateStill 1%nat deepInfo;;
     ProcessTileSeparationX 1%nat 42) (pairHeap 40 16) = Some (tt, h') /\
    h' !! 1%nat = Some (OBody b1') /\
    Touching.down (Body.touching b1') = true /\
    Blocked.down (Body.blocked b1') = true.
Proof.
  destruct (CheckOverlapY_then_ProcessTileSeparationX updateStill
              (pairHeap 40 16) 1%nat deepInfo deepInfo (bodyA 0)
              (bodyB 40 16) 42 eq_refl eq_refl eq_refl)
    as (h' & b1' & Hrun & Hb & _ & Hdown).
  exists h', b1'. split; [assumption|]. split; [assumption|].
  exact (Hdown eq_refl).
Defined.
